(** * FeatureStore-lite: feature dependency graphs and the pandas executor

    A shallow embedding of

    - [duckdb_featurestore/feature.py]: the [FeatureMeta] metaclass and the
      class-level graph operations of [Feature] ([dependency_graph],
      [_add_dependencies_to_graph], [assert_no_cyclic_dependencies],
      [root_dependencies]);
    - [fs_lite/feature.py] and [fs_lite/pandas/pandasfeaturestore.py]: the
      [Feature] dataclass, [column], [compute_feature] and
      [PandasFeatureStore.compute].

    Python objects that are mutated in place (networkx graphs, pandas
    frames) live in a heap and are addressed by reference; functions that
    touch them run in a state-and-exception monad.  Logging is left out. *)

From stdpp Require Import base decidable option list strings relations.
From Stdlib Require Import Ascii DecimalNat DecimalString.

Set Default Proof Using "Type".

(** ** Python exceptions and the monad of effectful code *)

Inductive exn : Type :=
  | TypeError (msg : string)
  | ValueError (msg : string)
  | AttributeError (msg : string)
  | MissingMethodException (msg : string)
  | CyclicDependencyException (msg : string)
  | KeyError (key : string).

Global Instance exn_eq_dec : EqDecision exn.
Proof. solve_decision. Defined.

(** Ways in which a run of the model, as opposed to a run of the program,
    can stop: the recursion budget is used up, or a reference does not
    point into the heap. *)
Inductive abort : Type := OutOfFuel | DanglingRef.

Inductive outcome (A : Type) : Type :=
  | Returns (a : A)
  | Raises (e : exn)
  | Aborts (r : abort).
Arguments Returns {A} a.
Arguments Raises {A} e.
Arguments Aborts {A} r.

(** A computation over a state of type [St]: it ends in an outcome and
    leaves a state, also when it raises. *)
Definition M (St A : Type) : Type := St → outcome A * St.

Definition raise {St A} (e : exn) : M St A := λ s, (Raises e, s).
Definition abort_with {St A} (r : abort) : M St A := λ s, (Aborts r, s).

Global Instance M_ret {St} : MRet (M St) := λ A a s, (Returns a, s).
Global Instance M_bind {St} : MBind (M St) := λ A B k m s,
  match m s with
  | (Returns a, s') => k a s'
  | (Raises e, s') => (Raises e, s')
  | (Aborts r, s') => (Aborts r, s')
  end.

(** [for x in xs: body x] *)
Fixpoint for_each {St A} (xs : list A) (body : A → M St unit) : M St unit :=
  match xs with
  | [] => mret ()
  | x :: xs' => body x;; for_each xs' body
  end.

(** [[f x for x in xs]] *)
Fixpoint list_comprehension {St A B} (xs : list A) (f : A → M St B)
  : M St (list B) :=
  match xs with
  | [] => mret []
  | x :: xs' => y ← f x; ys ← list_comprehension xs' f; mret (y :: ys)
  end.

(** [str(i)] for a non-negative integer. *)
Definition str (i : nat) : string := NilZero.string_of_uint (Nat.to_uint i).

(** * duckdb_featurestore *)

Module DuckdbFeatureStore.

(** Identity of a class object. *)
Definition cid : Type := nat.

(** The objects that can occur in a [dependencies] list or as a graph
    node: a column name, a [Feature] subclass (a class object), or an
    instance of one.  [FeatureMeta.__call__] refuses to create instances,
    so the last kind only arises by going around the metaclass; it is kept
    so that [isinstance(dep, Feature)] is modelled on every object. *)
Inductive pyobj : Type :=
  | Str (s : string)
  | Class (c : cid)
  | Instance (c : cid) (oid : nat).

Global Instance pyobj_eq_dec : EqDecision pyobj.
Proof. solve_decision. Defined.

(** ** networkx.DiGraph

    Nodes and edges in insertion order, each stored once, as the
    dict-of-dict adjacency of networkx keeps them. *)
Record DiGraph : Type := mkDiGraph {
  nodes : list pyobj;
  edges : list (pyobj * pyobj)
}.

Definition empty_graph : DiGraph := {| nodes := []; edges := [] |}.

Definition add_node (n : pyobj) (g : DiGraph) : DiGraph :=
  if decide (n ∈ nodes g) then g
  else {| nodes := nodes g ++ [n]; edges := edges g |}.

Definition add_edge (u v : pyobj) (g : DiGraph) : DiGraph :=
  let g' := add_node v (add_node u g) in
  if decide ((u, v) ∈ edges g') then g'
  else {| nodes := nodes g'; edges := edges g' ++ [(u, v)] |}.

(** [G.has_predecessor(u, v)], in networkx
    [u in self._pred and v in self._pred[u]]: the graph has the edge
    [v -> u]. *)
Definition has_predecessor (g : DiGraph) (u v : pyobj) : bool :=
  bool_decide ((v, u) ∈ edges g).

(** [G.predecessors(n)] *)
Definition predecessors (g : DiGraph) (n : pyobj) : list pyobj :=
  (filter (λ e, e.2 = n) (edges g)).*1.

(** [nx.is_directed_acyclic_graph]: networkx peels off generations of
    nodes of in-degree zero (Kahn's algorithm) and reports a cycle when
    nodes are left that it cannot peel. *)
Definition in_degree_zero (es : list (pyobj * pyobj)) (alive : list pyobj)
    (n : pyobj) : bool :=
  forallb (λ e, negb (bool_decide (e.2 = n) && bool_decide (e.1 ∈ alive))) es.

Fixpoint peel_generations (fuel : nat) (es : list (pyobj * pyobj))
    (alive : list pyobj) : bool :=
  match alive with
  | [] => true
  | _ :: _ =>
      match fuel with
      | O => false
      | S fuel' =>
          let zero := List.filter (in_degree_zero es alive) alive in
          match zero with
          | [] => false
          | _ :: _ =>
              peel_generations fuel' es
                (List.filter (λ n, negb (bool_decide (n ∈ zero))) alive)
          end
      end
  end.

Definition is_directed_acyclic_graph (g : DiGraph) : bool :=
  peel_generations (length (nodes g)) (edges g) (nodes g).

(** ** Interpreter state

    Class objects carry the class attributes the graph code reads; graphs
    are heap objects, created by [nx.DiGraph()] and mutated through their
    reference. *)
Record ClassDef : Type := mkClassDef {
  class_name : string;                       (* [cls.__name__] *)
  dependencies : option (list pyobj)         (* [cls.dependencies]; [None] is Python's None *)
}.

Definition ref : Type := nat.

Record State : Type := mkState {
  classes : list ClassDef;                   (* class objects, by identity *)
  heap : list DiGraph                        (* graph objects, by reference *)
}.

Definition getattr {A} (cls : cid) (field : ClassDef → A) : M State A :=
  λ st, match classes st !! cls with
        | Some cd => (Returns (field cd), st)
        | None => (Aborts DanglingRef, st)
        end.

(** [nx.DiGraph()] *)
Definition new_DiGraph : M State ref :=
  λ st, (Returns (length (heap st)),
         {| classes := classes st; heap := heap st ++ [empty_graph] |}).

Definition mutate (graph : ref) (f : DiGraph → DiGraph) : M State unit :=
  λ st, match heap st !! graph with
        | Some g => (Returns (),
                     {| classes := classes st; heap := <[graph := f g]> (heap st) |})
        | None => (Aborts DanglingRef, st)
        end.

Definition inspect {A} (graph : ref) (f : DiGraph → A) : M State A :=
  λ st, match heap st !! graph with
        | Some g => (Returns (f g), st)
        | None => (Aborts DanglingRef, st)
        end.

(** [isinstance(o, Feature)]: true of instances of [Feature] and of its
    subclasses.  A class object is an instance of its metaclass
    [FeatureMeta], which does not derive from [Feature], and a string is
    an instance of [str]. *)
Definition isinstance_Feature (o : pyobj) : bool :=
  match o with
  | Instance _ _ => true
  | Class _ | Str _ => false
  end.

(** The class a classmethod looked up on [o] is bound to. *)
Definition classmethod_owner (o : pyobj) : option cid :=
  match o with
  | Class c | Instance c _ => Some c
  | Str _ => None
  end.

(** ** class Feature *)

Fixpoint _add_dependencies_to_graph (fuel : nat) (cls : cid) (graph : ref)
  : M State unit :=
  match fuel with
  | O => abort_with OutOfFuel
  | S fuel' =>
      deps ← getattr cls dependencies;
      match deps with
      | None => raise (TypeError "'NoneType' object is not iterable")
      | Some deps =>
          for_each deps (λ dep,
            mutate graph (add_node dep);;
            mutate graph (add_edge (Class cls) dep);;
            if isinstance_Feature dep then
              seen ← inspect graph (λ g, has_predecessor g dep (Class cls));
              if negb seen then
                match classmethod_owner dep with
                | Some c => _add_dependencies_to_graph fuel' c graph
                | None =>
                    raise (AttributeError
                      "'str' object has no attribute '_add_dependencies_to_graph'")
                end
              else mret ()
            else mret ())
      end
  end.

Definition dependency_graph (fuel : nat) (cls : cid) : M State ref :=
  graph ← new_DiGraph;
  mutate graph (add_node (Class cls));;
  _add_dependencies_to_graph fuel cls graph;;
  mret graph.

Definition assert_no_cyclic_dependencies (fuel : nat) (cls : cid)
  : M State unit :=
  graph ← dependency_graph fuel cls;
  dag ← inspect graph is_directed_acyclic_graph;
  if negb dag then
    raise (CyclicDependencyException "Dependencies do not form a DAG.")
  else mret ().

Definition root_dependencies (fuel : nat) (cls : cid) : M State (list pyobj) :=
  graph ← dependency_graph fuel cls;
  inspect graph (λ g,
    List.filter (λ node, bool_decide (predecessors g node = [])) (nodes g)).

Definition name (cls : cid) : M State string := getattr cls class_name.

(** ** class FeatureMeta *)

(** What [isinstance(namespace[m], classmethod)] can tell apart. *)
Inductive attr : Type := ClassMethod | OtherAttr.

Definition isinstance_classmethod (a : attr) : bool :=
  match a with ClassMethod => true | OtherAttr => false end.

Definition namespace_lookup (namespace : list (string * attr)) (m : string)
  : option attr :=
  snd <$> List.find (λ kv, bool_decide (kv.1 = m)) namespace.

Definition repr_list (l : list string) : string :=
  "[" +:+ String.concat ", " ((λ m, "'" +:+ m +:+ "'") <$> l) +:+ "]".

(** [FeatureMeta.__init__(cls, name, bases, namespace)].  [bases] is the
    tuple of base classes, which are class objects; [required] is what
    [getattr(cls, '_required_class_methods', [])] finds. *)
Definition FeatureMeta_init (name : string) (bases : list cid)
    (namespace : list (string * attr)) (required : list string)
  : outcome unit :=
  if negb (bool_decide (Str "Feature" ∈ Class <$> bases)) then Returns ()
  else
    let missing_methods :=
      List.filter (λ method,
        match namespace_lookup namespace method with
        | None => true
        | Some a => negb (isinstance_classmethod a)
        end) required in
    match missing_methods with
    | _ :: _ =>
        Raises (MissingMethodException
          ("Class " +:+ name +:+ " must implement class methods: "
             +:+ repr_list missing_methods))
    | [] => Returns ()
    end.

(** [FeatureMeta.__call__(cls, ...)] *)
Definition FeatureMeta_call (cls : cid) : M State pyobj :=
  n ← getattr cls class_name;
  raise (TypeError ("Instances of " +:+ n +:+ " cannot be created")).

(** [Feature._required_class_methods] *)
Definition _required_class_methods : list string := ["compute"].

(** [Feature] itself, with the defaults of its class body. *)
Definition Feature_class : ClassDef :=
  {| class_name := "Feature"; dependencies := None |}.

(** The state after the class statements of a module: no graph yet. *)
Definition declared (l : list ClassDef) : State :=
  {| classes := l; heap := [] |}.

(** ** Closed forms the proofs refer to *)

(** What one round of the loop in [_add_dependencies_to_graph] does to the
    graph, and the graph the loop leaves when it never descends. *)
Definition link (cls : cid) (g : DiGraph) (dep : pyobj) : DiGraph :=
  add_edge (Class cls) dep (add_node dep g).

Definition star (cls : cid) (deps : list pyobj) : DiGraph :=
  foldl (link cls) (add_node (Class cls) empty_graph) deps.

Definition with_heap (st : State) (h : list DiGraph) : State :=
  {| classes := classes st; heap := h |}.

(** The invariant of the loop at root [cls]: [seen] are the entries of
    [cls.dependencies] handled so far. *)
Record star_inv (cls : cid) (seen : list pyobj) (g : DiGraph) : Prop := {
  inv_head : ∃ tl, nodes g = Class cls :: tl;
  inv_nodes : ∀ n, n ∈ nodes g ↔ n = Class cls ∨ n ∈ seen;
  inv_edges : ∀ u v, (u, v) ∈ edges g ↔ u = Class cls ∧ v ∈ seen;
  inv_nodup : NoDup (nodes g)
}.

(** Cycles, in a graph and in the declarations. *)
Definition edge (g : DiGraph) (u v : pyobj) : Prop := (u, v) ∈ edges g.

Definition has_cycle (g : DiGraph) : Prop := ∃ n, tc (edge g) n n.

(** [d] is among the direct dependencies of [c]. *)
Definition lists (st : State) (c d : cid) : Prop :=
  ∃ cd deps, classes st !! c = Some cd ∧ dependencies cd = Some deps ∧
             Class d ∈ deps.

Definition lists_itself (st : State) (c : cid) : Prop := tc (lists st) c c.

(** The four ways a call can go, read off the class objects alone. *)
Definition graph_of (fuel : nat) (cls : cid) (cl : list ClassDef)
  : outcome DiGraph :=
  match fuel with
  | O => Aborts OutOfFuel
  | S _ =>
      match cl !! cls with
      | None => Aborts DanglingRef
      | Some cd =>
          match dependencies cd with
          | None => Raises (TypeError "'NoneType' object is not iterable")
          | Some deps => Returns (star cls deps)
          end
      end
  end.

Definition relay {X Y} (o : outcome X) (y : Y) : outcome Y :=
  match o with
  | Returns _ => Returns y
  | Raises e => Raises e
  | Aborts r => Aborts r
  end.

End DuckdbFeatureStore.

(** * fs_lite *)

Module FsLite.

Section Pandas.

(** What pandas keeps below the column labels of a frame (the row index
    and the cell values) and the two operations on it that the executor
    reaches: taking out the column at one position, and lining up the rows
    of several frames side by side, which pandas may refuse. *)
Variable rows : Type.
Variable take_column : rows → nat → rows.
Variable align_rows : list rows → outcome rows.

Record DataFrame : Type := mkDataFrame {
  columns : list string;                     (* labels, left to right; may repeat *)
  body : rows
}.

Definition ref : Type := nat.
(** The heap of frames, [Heap] below. *)
Local Abbreviation Heap := (list DataFrame).

(** What a compute function can hand back. *)
Inductive value : Type :=
  | NoneValue
  | FrameRef (r : ref)                       (* a [pd.DataFrame] *)
  | OtherValue (repr : string).              (* a Series, a number, ... *)

Definition callable : Type := ref → M Heap value.

(** The frozen dataclass [Feature]. *)
#[local] Set Warnings "-register-all".
Inductive Feature : Type := mkFeature {
  name : string;
  compute : option callable;                 (* [None] is Python's None *)
  descr : option string;
  version : option string;
  dependencies : list (string * Feature);
  index_columns : list string
}.

(** [Feature.__call__] *)
Definition Feature_call (self : Feature) (input : ref) : M Heap value :=
  match compute self with
  | Some f => f input
  | None => raise (TypeError "'NoneType' object is not callable")
  end.

(** [Feature._from_function], [func] given by its [__name__], [__doc__]
    and behaviour. *)
Definition _from_function (func_name : string) (func_doc : option string)
    (func : callable) (name : option string) (descr : option string)
    (version : option string) (index_columns : list string)
    (dependencies : list (string * Feature)) : Feature :=
  {| name := default func_name name;
     compute := Some func;
     descr := match descr with None => func_doc | Some d => Some d end;
     version := version;
     dependencies := dependencies;
     index_columns := index_columns |}.

(** The decorator [feature(...)] applied to [func]. *)
Definition feature (name descr version : option string)
    (index_columns : option (list string))
    (dependencies : option (list (string * Feature)))
    (func_name : string) (func_doc : option string) (func : callable)
  : Feature :=
  _from_function func_name func_doc func name descr version
    (default [] index_columns) (default [] dependencies).

(** [column(name)] *)
Definition column (name : string) : Feature :=
  {| name := name;
     compute := Some (λ table, mret NoneValue);
     descr := Some "Identifies a given column by name.";
     version := Some "1.0.0";
     dependencies := [];
     index_columns := [] |}.

(** ** Frames in the heap *)

Definition load (r : ref) : M Heap DataFrame :=
  λ h, match h !! r with
       | Some df => (Returns df, h)
       | None => (Aborts DanglingRef, h)
       end.

Definition allocate (df : DataFrame) : M Heap ref :=
  λ h, (Returns (length h), h ++ [df]).

Definition lift {A} (o : outcome A) : M Heap A := λ h, (o, h).

(** Positions at which a label occurs among the columns. *)
Fixpoint positions (label : string) (cols : list string) (i : nat) : list nat :=
  match cols with
  | [] => []
  | c :: cols' =>
      (if bool_decide (c = label) then [i] else []) ++ positions label cols' (S i)
  end.

(** [df[label].to_frame()] for a label among the columns: a unique label
    selects a Series, a repeated one a DataFrame, which has no
    [to_frame]. *)
Definition getitem_to_frame (input : ref) (label : string) : M Heap ref :=
  df ← load input;
  match positions label (columns df) 0 with
  | [i] => allocate {| columns := [label]; body := take_column (body df) i |}
  | [] => raise (KeyError label)
  | _ :: _ :: _ =>
      raise (AttributeError "'DataFrame' object has no attribute 'to_frame'")
  end.

(** [df.columns = labels] *)
Definition set_columns (r : ref) (labels : list string) : M Heap unit :=
  λ h, match h !! r with
       | Some df =>
           if bool_decide (length labels = length (columns df)) then
             (Returns (), <[r := {| columns := labels; body := body df |}]> h)
           else (Raises (ValueError "Length mismatch"), h)
       | None => (Aborts DanglingRef, h)
       end.

(** [pd.concat(objs, axis=1)] *)
Definition pd_concat (objs : list ref) : M Heap ref :=
  frames ← list_comprehension objs load;
  match frames with
  | [] => raise (ValueError "No objects to concatenate")
  | _ :: _ =>
      aligned ← lift (align_rows (body <$> frames));
      allocate {| columns := concat (columns <$> frames); body := aligned |}
  end.

(** ** pandasfeaturestore.py *)

Definition compute_feature (input : ref) (feature : Feature) : M Heap ref :=
  (if bool_decide (0 < length (index_columns feature)) then
     raise (ValueError "The `index_columns` Feature attribute is not used with Pandas features. Pandas DataFrame index is used instead.")
   else mret ());;
  output ←
    match compute feature with
    | None =>
        df ← load input;
        if negb (bool_decide (name feature ∈ columns df)) then
          raise (ValueError ("Feature " +:+ name feature +:+ " is not in input table."))
        else getitem_to_frame input (name feature)
    | Some f =>
        output ← f input;
        match output with
        | FrameRef r => mret r
        | NoneValue | OtherValue _ =>
            raise (ValueError ("Feature " +:+ name feature +:+ " did not return a DataFrame."))
        end
    end;
  df ← load output;
  set_columns output
    ((λ i, name feature +:+ "_" +:+ str i) <$> seq 0 (length (columns df)));;
  mret output.

(** [PandasFeatureStore.compute] *)
Definition PandasFeatureStore_compute (input : ref) (features : list Feature)
  : M Heap ref :=
  outputs ← list_comprehension features (compute_feature input);
  pd_concat outputs.

End Pandas.

Abbreviation Heap rows := (list (DataFrame rows)).

Arguments mkDataFrame {rows} columns body.
Arguments columns {rows} d.
Arguments body {rows} d.
Arguments mkFeature {rows}.
Arguments name {rows} f.
Arguments compute {rows} f.
Arguments descr {rows} f.
Arguments version {rows} f.
Arguments dependencies {rows} f.
Arguments index_columns {rows} f.
Arguments Feature_call {rows} self input.
Arguments _from_function {rows}.
Arguments feature {rows}.
Arguments column {rows} name.
Arguments load {rows} r.
Arguments allocate {rows} df.
Arguments lift {rows A} o.
Arguments getitem_to_frame {rows} take_column input label.
Arguments set_columns {rows} r labels.
Arguments pd_concat {rows} align_rows objs.
Arguments compute_feature {rows} take_column input feature.
Arguments PandasFeatureStore_compute {rows} take_column align_rows input features.

(** The message of the first [ValueError] in [compute_feature]. *)
Definition index_columns_message : string :=
  "The `index_columns` Feature attribute is not used with Pandas features. Pandas DataFrame index is used instead.".

(** The labels [compute_feature] gives to [n] output columns. *)
Definition suffixed (name : string) (n : nat) : list string :=
  (λ i, name +:+ "_" +:+ str i) <$> seq 0 n.

(** A compute function that hands back a frame it has just created and
    leaves the frames that exist alone. *)
Definition returns_a_new_frame {rows} (f : callable rows) (input : ref)
  : Prop :=
  ∀ h v h', f input h = (Returns v, h') →
    ∃ df, v = FrameRef (length h) ∧ h' = h ++ [df].

(** A table model small enough to run: a frame's rows are its cell
    values, column by column, over one shared row index. *)
Definition cells : Type := list (list Z).

Definition take_cells (c : cells) (i : nat) : cells :=
  match c !! i with Some col => [col] | None => [] end.

Definition align_cells (cs : list cells) : outcome cells := Returns (concat cs).

(** [@feature() def f(table): return pd.DataFrame({"v": [1, 2]})] *)
Definition single_column_feature : Feature cells :=
  feature None None None None None "f" None
    (λ table, r ← allocate {| columns := ["v"]; body := [[1; 2]%Z] |};
              mret (FrameRef r)).

(** [@feature() def s(table): return table["x"] + 1], a Series. *)
Definition series_feature : Feature cells :=
  feature None None None None None "s" None
    (λ table, mret (OtherValue "Series")).

(** [@feature(index_columns=["id"]) def g(table): return table] *)
Definition indexed_feature : Feature cells :=
  feature None None None (Some ["id"]) None "g" None
    (λ table, mret (FrameRef table)).

(** [@feature() def pair(table): return table[["x", "y"]] * 2] *)
Definition two_column_feature : Feature cells :=
  feature None None None None None "pair" None
    (λ table, r ← allocate {| columns := ["x"; "y"];
                              body := [[2; 4]; [6; 8]]%Z |};
              mret (FrameRef r)).

(** [Feature(name=label, compute=None)], built with the dataclass
    constructor: neither the decorator nor [column] leaves [compute] at
    None. *)
Definition direct_column {rows} (label : string) : Feature rows :=
  {| name := label; compute := None; descr := None; version := None;
     dependencies := []; index_columns := [] |}.


(** [@feature() def boom(table): return table["z"]] on a table without
    the column [z]. *)
Definition raising_feature : Feature cells :=
  feature None None None None None "boom" None
    (λ table, raise (KeyError "z")).

(** A string without underscore, as [str(i)] is. *)
Fixpoint underscore_free (s : string) : bool :=
  match s with
  | EmptyString => true
  | String c s' => negb (Ascii.eqb c "_"%char) && underscore_free s'
  end.


(** A heap holding one input table with the columns [x] and [y]. *)
Definition input_table : Heap cells :=
  [{| columns := ["x"; "y"]; body := [[1; 2]; [3; 4]]%Z |}].

End FsLite.

(** * Descriptor sets used below *)

Module Declarations.
Import DuckdbFeatureStore.

(** Class identities: 0 is [Feature], then [A], [B], [C], [E]. *)
Definition A : cid := 1.
Definition B : cid := 2.
Definition C : cid := 3.
Definition E : cid := 4.

(** [A] depends on [B] and [C]; both depend on [E]. *)
Definition diamond : State := declared [
  Feature_class;
  {| class_name := "A"; dependencies := Some [Class B; Class C] |};
  {| class_name := "B"; dependencies := Some [Class E] |};
  {| class_name := "C"; dependencies := Some [Class E] |};
  {| class_name := "E"; dependencies := Some [] |} ].

(** [A] depends on [B], [B] on the bare column ["C"]. *)
Definition chain : State := declared [
  Feature_class;
  {| class_name := "A"; dependencies := Some [Class B] |};
  {| class_name := "B"; dependencies := Some [Str "C"] |} ].

(** [A] depends on [B] and [B] on [A]. *)
Definition two_cycle : State := declared [
  Feature_class;
  {| class_name := "A"; dependencies := Some [Class B] |};
  {| class_name := "B"; dependencies := Some [Class A] |} ].

(** [A] lists itself. *)
Definition self_loop : State := declared [
  Feature_class;
  {| class_name := "A"; dependencies := Some [Class A] |} ].

(** [A] lists [B] twice, the column ["x"] and an instance of [B]. *)
Definition repeated : State := declared [
  Feature_class;
  {| class_name := "A";
     dependencies := Some [Class B; Str "x"; Class B; Instance B 0] |};
  {| class_name := "B"; dependencies := Some [Class A] |} ].

(** As [repeated], with [B] listed once. *)
Definition listed_once : State := declared [
  Feature_class;
  {| class_name := "A";
     dependencies := Some [Class B; Str "x"; Instance B 0] |};
  {| class_name := "B"; dependencies := Some [Class A] |} ].

(** [class F(Feature): pass], which leaves [dependencies] at None. *)
Definition bare_subclass : State := declared [
  Feature_class;
  {| class_name := "F"; dependencies := None |} ].

End Declarations.

(** * The dependency graph *)

Module GraphProofs.
Import DuckdbFeatureStore.

(** ** The graph operations *)

Lemma add_edge_has_edge u v g : (u, v) ∈ edges (add_edge u v g).
Proof.
  unfold add_edge. case_decide as Hin; [done|].
  simpl. apply elem_of_app. right. by apply list_elem_of_singleton.
Qed.

(** The edge [cls -> dep] that the loop has just inserted is the one the
    guard asks about. *)
Lemma has_predecessor_after_add_edge u v g :
  has_predecessor (add_edge u v g) v u = true.
Proof. unfold has_predecessor. apply bool_decide_eq_true, add_edge_has_edge. Qed.

Lemma mutate_spec st graph g f :
  heap st !! graph = Some g →
  mutate graph f st = (Returns (), with_heap st (<[graph := f g]> (heap st))).
Proof. intros Hg. unfold mutate. by rewrite Hg. Qed.

Lemma inspect_spec {X} st graph g (f : DiGraph → X) :
  heap st !! graph = Some g → inspect graph f st = (Returns (f g), st).
Proof. intros Hg. unfold inspect. by rewrite Hg. Qed.

Lemma with_heap_insert_lookup st graph g g' :
  heap st !! graph = Some g →
  heap (with_heap st (<[graph := g']> (heap st))) !! graph = Some g'.
Proof.
  intros Hg. simpl. apply list_lookup_insert_eq. by eapply lookup_lt_Some.
Qed.

(** One round of the loop: both guards are evaluated, the second is
    false, and nothing is expanded. *)
Lemma loop_round fuel cls graph dep st g :
  heap st !! graph = Some g →
  (mutate graph (add_node dep);;
   mutate graph (add_edge (Class cls) dep);;
   if isinstance_Feature dep then
     seen ← inspect graph (λ g, has_predecessor g dep (Class cls));
     if negb seen then
       match classmethod_owner dep with
       | Some c => _add_dependencies_to_graph fuel c graph
       | None =>
           raise (AttributeError
             "'str' object has no attribute '_add_dependencies_to_graph'")
       end
     else mret ()
   else mret ()) st
  = (Returns (), with_heap st (<[graph := link cls g dep]> (heap st))).
Proof.
  intros Hg. unfold mbind, M_bind.
  rewrite (mutate_spec _ _ _ _ Hg).
  rewrite (mutate_spec _ _ (add_node dep g)); [|by eapply with_heap_insert_lookup].
  simpl. rewrite list_insert_insert_eq. fold (link cls g dep).
  destruct (isinstance_Feature dep); [|done].
  erewrite inspect_spec; last first.
  { simpl. apply list_lookup_insert_eq. by eapply lookup_lt_Some. }
  unfold link. by rewrite has_predecessor_after_add_edge.
Qed.

Lemma loop_spec fuel cls graph deps : ∀ st g,
  heap st !! graph = Some g →
  for_each deps (λ dep,
    mutate graph (add_node dep);;
    mutate graph (add_edge (Class cls) dep);;
    if isinstance_Feature dep then
      seen ← inspect graph (λ g, has_predecessor g dep (Class cls));
      if negb seen then
        match classmethod_owner dep with
        | Some c => _add_dependencies_to_graph fuel c graph
        | None =>
            raise (AttributeError
              "'str' object has no attribute '_add_dependencies_to_graph'")
        end
      else mret ()
    else mret ()) st
  = (Returns (), with_heap st (<[graph := foldl (link cls) g deps]> (heap st))).
Proof.
  induction deps as [|dep deps IH]; intros st g Hg.
  - simpl. unfold mret, M_ret, with_heap. rewrite list_insert_id; [|done].
    by destruct st.
  - cbn [for_each]. unfold mbind at 1, M_bind at 1.
    rewrite (loop_round _ _ _ _ _ _ Hg).
    rewrite (IH _ (link cls g dep)); [|by eapply with_heap_insert_lookup].
    simpl. unfold with_heap. simpl. by rewrite list_insert_insert_eq.
Qed.

Lemma lookup_fresh (h : list DiGraph) g : (h ++ [g]) !! length h = Some g.
Proof. by rewrite list_lookup_middle. Qed.

Lemma insert_fresh (h : list DiGraph) g g' :
  <[length h := g']> (h ++ [g]) = h ++ [g'].
Proof.
  rewrite insert_app_r_alt; [|done]. by rewrite Nat.sub_diag.
Qed.

Lemma add_dependencies_spec fuel cls graph st cd deps g :
  classes st !! cls = Some cd →
  dependencies cd = Some deps →
  heap st !! graph = Some g →
  _add_dependencies_to_graph (S fuel) cls graph st
  = (Returns (), with_heap st (<[graph := foldl (link cls) g deps]> (heap st))).
Proof.
  intros Hcls Hdeps Hg. cbn [_add_dependencies_to_graph].
  unfold mbind at 1, M_bind at 1. unfold getattr. rewrite Hcls, Hdeps.
  by apply loop_spec.
Qed.

Lemma add_dependencies_None fuel cls graph st cd :
  classes st !! cls = Some cd →
  dependencies cd = None →
  _add_dependencies_to_graph (S fuel) cls graph st
  = (Raises (TypeError "'NoneType' object is not iterable"), st).
Proof.
  intros Hcls Hdeps. cbn [_add_dependencies_to_graph].
  unfold mbind, M_bind, getattr. by rewrite Hcls, Hdeps.
Qed.

(** [dependency_graph] builds the root and its direct dependencies, in a
    fresh graph object, whatever the budget for nested calls. *)
Lemma dependency_graph_spec fuel cls st cd deps :
  classes st !! cls = Some cd →
  dependencies cd = Some deps →
  dependency_graph (S fuel) cls st
  = (Returns (length (heap st)), with_heap st (heap st ++ [star cls deps])).
Proof.
  intros Hcls Hdeps. unfold dependency_graph, mbind, M_bind, new_DiGraph.
  erewrite mutate_spec; [|apply lookup_fresh].
  unfold with_heap; cbn [heap classes]. rewrite insert_fresh.
  erewrite add_dependencies_spec; [|done|done|apply lookup_fresh].
  unfold with_heap; cbn [heap classes]. by rewrite insert_fresh.
Qed.

Lemma dependency_graph_None fuel cls st cd :
  classes st !! cls = Some cd →
  dependencies cd = None →
  dependency_graph (S fuel) cls st
  = (Raises (TypeError "'NoneType' object is not iterable"),
     with_heap st (heap st ++ [add_node (Class cls) empty_graph])).
Proof.
  intros Hcls Hdeps. unfold dependency_graph, mbind, M_bind, new_DiGraph.
  erewrite mutate_spec; [|apply lookup_fresh].
  unfold with_heap; cbn [heap classes]. rewrite insert_fresh.
  by erewrite add_dependencies_None.
Qed.

(** ** Shape of the graph that is built *)

Lemma elem_of_nodes_add_node n m g :
  n ∈ nodes (add_node m g) ↔ n = m ∨ n ∈ nodes g.
Proof.
  unfold add_node. case_decide as Hin; simpl.
  - split; [by right|]. intros [->|?]; done.
  - rewrite elem_of_app, list_elem_of_singleton. tauto.
Qed.

Lemma edges_add_node m g : edges (add_node m g) = edges g.
Proof. unfold add_node. by case_decide. Qed.

Lemma NoDup_add_node m g : NoDup (nodes g) → NoDup (nodes (add_node m g)).
Proof.
  intros Hnd. unfold add_node. case_decide as Hin; [done|]. simpl.
  apply NoDup_app. split_and!; [done| |apply NoDup_singleton].
  intros x Hx Hx'. apply list_elem_of_singleton in Hx'. by subst.
Qed.

Lemma head_add_node m g x tl :
  nodes g = x :: tl → ∃ tl', nodes (add_node m g) = x :: tl'.
Proof.
  intros Hg. unfold add_node. case_decide; simpl; rewrite Hg; eauto.
Qed.

Lemma nodes_add_edge u v g :
  nodes (add_edge u v g) = nodes (add_node v (add_node u g)).
Proof. unfold add_edge. by case_decide. Qed.

Lemma elem_of_edges_add_edge e u v g :
  e ∈ edges (add_edge u v g) ↔ e = (u, v) ∨ e ∈ edges g.
Proof.
  unfold add_edge. case_decide as Hin; simpl; rewrite ?edges_add_node in *.
  - split; [by right|]. intros [->|?]; done.
  - rewrite elem_of_app, list_elem_of_singleton. tauto.
Qed.

Lemma predecessors_nil g n :
  predecessors g n = [] ↔ ∀ u, (u, n) ∉ edges g.
Proof.
  unfold predecessors. split.
  - intros Hnil%fmap_nil_inv u Hin.
    by pose proof (filter_nil_not_elem_of _ _ (u, n) Hnil eq_refl).
  - intros Hno.
    destruct (filter _ (edges g)) as [|[u v] l] eqn:Hf; [done|]. exfalso.
    assert ((u, v) ∈ filter (λ e : pyobj * pyobj, e.2 = n) (edges g)) as Hin
      by (rewrite Hf; left).
    apply list_elem_of_filter in Hin as [Hv Hin]. simpl in Hv. subst.
    by apply (Hno u).
Qed.

Lemma star_inv_root cls : star_inv cls [] (add_node (Class cls) empty_graph).
Proof.
  split; simpl.
  - by eexists.
  - intros n. rewrite list_elem_of_singleton, elem_of_nil. tauto.
  - intros u v. rewrite !elem_of_nil. tauto.
  - apply NoDup_singleton.
Qed.

Lemma star_inv_link cls seen g dep :
  star_inv cls seen g → star_inv cls (seen ++ [dep]) (link cls g dep).
Proof.
  intros [[tl Hhd] Hn He Hnd]. unfold link. split.
  - rewrite nodes_add_edge.
    destruct (head_add_node dep g _ _ Hhd) as [tl1 H1].
    destruct (head_add_node (Class cls) _ _ _ H1) as [tl2 H2].
    destruct (head_add_node dep _ _ _ H2) as [tl3 H3]. eauto.
  - intros n. rewrite nodes_add_edge, !elem_of_nodes_add_node, Hn,
      elem_of_app, list_elem_of_singleton. tauto.
  - intros u v. rewrite elem_of_edges_add_edge, edges_add_node, He,
      elem_of_app, list_elem_of_singleton. split.
    + intros [[= -> ->]|[-> ?]]; tauto.
    + intros [-> [?| ->]]; tauto.
  - rewrite nodes_add_edge. by do 3 apply NoDup_add_node.
Qed.

Lemma star_inv_foldl cls deps : ∀ seen g,
  star_inv cls seen g → star_inv cls (seen ++ deps) (foldl (link cls) g deps).
Proof.
  induction deps as [|dep deps IH]; intros seen g Hinv; simpl.
  - by rewrite app_nil_r.
  - rewrite (assoc_L (++) seen [dep] deps : seen ++ dep :: deps = _).
    apply IH. by apply star_inv_link.
Qed.

Lemma star_inv_star cls deps : star_inv cls deps (star cls deps).
Proof. apply (star_inv_foldl cls deps []), star_inv_root. Qed.

(** ** Roots and acyclicity of that graph *)

Lemma filter_none {X} (f : X → bool) (l : list X) :
  (∀ x, x ∈ l → f x = false) → List.filter f l = [].
Proof.
  induction l as [|x l IH]; intros Hf; [done|]. simpl.
  rewrite (Hf x) by left. apply IH. intros y Hy. apply Hf. by right.
Qed.

Lemma filter_all {X} (f : X → bool) (l : list X) :
  (∀ x, x ∈ l → f x = true) → List.filter f l = l.
Proof.
  induction l as [|x l IH]; intros Hf; [done|]. simpl.
  rewrite (Hf x) by left. f_equal. apply IH. intros y Hy. apply Hf. by right.
Qed.

Section star_facts.
Context (cls : cid) (seen : list pyobj) (g : DiGraph).
Context (Hinv : star_inv cls seen g).

Lemma star_tail tl :
  nodes g = Class cls :: tl → (Class cls ∉ tl) ∧ (∀ n, n ∈ tl → n ∈ seen).
Proof using Hinv.
  intros Hhd. pose proof (inv_nodup _ _ _ Hinv) as Hnd.
  rewrite Hhd in Hnd. apply NoDup_cons in Hnd as [Hnotin _].
  split; [done|]. intros n Hn.
  assert (n ∈ nodes g) as Hin by (rewrite Hhd; by right).
  apply (inv_nodes _ _ _ Hinv) in Hin as [->|?]; done.
Qed.

Lemma star_has_predecessor n : n ∈ seen → predecessors g n ≠ [].
Proof using Hinv.
  intros Hn Hnil. rewrite predecessors_nil in Hnil.
  apply (Hnil (Class cls)), (inv_edges _ _ _ Hinv). done.
Qed.

Lemma star_root_predecessors :
  predecessors g (Class cls) = [] ↔ Class cls ∉ seen.
Proof using Hinv.
  rewrite predecessors_nil. split.
  - intros Hno Hin. apply (Hno (Class cls)), (inv_edges _ _ _ Hinv). done.
  - intros Hnotin u Hin. apply (inv_edges _ _ _ Hinv) in Hin as [_ ?]. done.
Qed.

(** The only node that can be without predecessor is the root. *)
Lemma star_roots :
  List.filter (λ node, bool_decide (predecessors g node = [])) (nodes g)
  = if bool_decide (Class cls ∈ seen) then [] else [Class cls].
Proof using Hinv.
  destruct (inv_head _ _ _ Hinv) as [tl Hhd].
  destruct (star_tail tl Hhd) as [_ Htl]. rewrite Hhd. simpl.
  rewrite (filter_none _ tl); last first.
  { intros n Hn. apply bool_decide_eq_false, star_has_predecessor. auto. }
  destruct (decide (Class cls ∈ seen)) as [Hself|Hself].
  - rewrite (bool_decide_eq_true_2 _ Hself).
    rewrite bool_decide_eq_false_2; [done|]. by apply star_has_predecessor.
  - rewrite (bool_decide_eq_false_2 _ Hself).
    rewrite bool_decide_eq_true_2; [done|]. by apply star_root_predecessors.
Qed.

Lemma in_degree_zero_false alive n :
  n ∈ seen → Class cls ∈ alive → in_degree_zero (edges g) alive n = false.
Proof using Hinv.
  intros Hn Halive. unfold in_degree_zero.
  apply not_true_is_false. intros Hall.
  rewrite forallb_forall in Hall.
  specialize (Hall (Class cls, n)). simpl in Hall.
  rewrite !bool_decide_eq_true_2 in Hall by done. simpl in Hall.
  assert (false = true) as ?; [|done]. apply Hall.
  apply list_elem_of_In, (inv_edges _ _ _ Hinv). done.
Qed.

Lemma in_degree_zero_true alive n :
  (n ∉ seen ∨ Class cls ∉ alive) → in_degree_zero (edges g) alive n = true.
Proof using Hinv.
  intros Hor. unfold in_degree_zero. apply forallb_forall.
  intros [u v] Hin%list_elem_of_In. simpl.
  apply (inv_edges _ _ _ Hinv) in Hin as [-> Hv].
  apply negb_true_iff, andb_false_iff.
  destruct Hor as [Hn|Ha].
  - left. apply bool_decide_eq_false. by intros ->.
  - right. by apply bool_decide_eq_false.
Qed.

(** The graph fails the test of [nx.is_directed_acyclic_graph] exactly
    when the root is among its own direct dependencies. *)
Lemma star_acyclic :
  is_directed_acyclic_graph g = negb (bool_decide (Class cls ∈ seen)).
Proof using Hinv.
  destruct (inv_head _ _ _ Hinv) as [tl Hhd].
  destruct (star_tail tl Hhd) as [Hroot Htl].
  unfold is_directed_acyclic_graph. rewrite Hhd.
  cbn [length peel_generations].
  destruct (decide (Class cls ∈ seen)) as [Hself|Hself].
  - rewrite (bool_decide_eq_true_2 _ Hself). cbn [negb].
    rewrite filter_none; [done|]. intros n Hn.
    apply in_degree_zero_false; [|left].
    apply elem_of_cons in Hn as [->|?]; auto.
  - rewrite (bool_decide_eq_false_2 _ Hself). cbn [negb List.filter].
    rewrite in_degree_zero_true by auto.
    rewrite (filter_none _ tl); last first.
    { intros n Hn. apply in_degree_zero_false; [auto|left]. }
    rewrite bool_decide_eq_true_2 by left. cbn [negb].
    rewrite (filter_all _ tl); last first.
    { intros n Hn. apply negb_true_iff, bool_decide_eq_false.
      rewrite list_elem_of_singleton. by intros ->. }
    destruct tl as [|n tl']; [reflexivity|]. cbn [length peel_generations].
    rewrite (filter_all _ (n :: tl')); last first.
    { intros m Hm. apply in_degree_zero_true. by right. }
    rewrite filter_none; [by destruct (length tl')|]. intros m Hm.
    by apply negb_false_iff, bool_decide_eq_true.
Qed.

Lemma tc_last {X} (R : relation X) x y : tc R x y → ∃ z, R z y.
Proof. induction 1 as [x y HR|x y z _ _ IH]; eauto. Qed.

Lemma star_cycle_iff : has_cycle g ↔ Class cls ∈ seen.
Proof using Hinv.
  split.
  - intros [n Hcycle].
    assert (n = Class cls) as ->.
    { inversion Hcycle as [?? He|?? m He]; by apply (inv_edges _ _ _ Hinv) in He as [-> _]. }
    apply tc_last in Hcycle as [z He]. by apply (inv_edges _ _ _ Hinv) in He as [_ ?].
  - intros Hself. exists (Class cls). apply tc_once.
    by apply (inv_edges _ _ _ Hinv).
Qed.

(** On the graphs that are built, the test of networkx agrees with the
    absence of a cycle. *)
Lemma star_acyclic_iff : is_directed_acyclic_graph g = true ↔ ¬ has_cycle g.
Proof using Hinv.
  rewrite star_acyclic, star_cycle_iff, negb_true_iff.
  apply bool_decide_eq_false.
Qed.
End star_facts.

(** ** The three operations, in closed form *)

Lemma assert_no_cyclic_dependencies_spec fuel cls st cd deps :
  classes st !! cls = Some cd →
  dependencies cd = Some deps →
  assert_no_cyclic_dependencies (S fuel) cls st
  = (if bool_decide (Class cls ∈ deps)
     then Raises (CyclicDependencyException "Dependencies do not form a DAG.")
     else Returns (),
     with_heap st (heap st ++ [star cls deps])).
Proof.
  intros Hcls Hdeps. unfold assert_no_cyclic_dependencies, mbind, M_bind.
  rewrite (dependency_graph_spec _ _ _ _ _ Hcls Hdeps).
  erewrite inspect_spec; [|apply lookup_fresh].
  rewrite (star_acyclic cls deps _ (star_inv_star cls deps)).
  by case_bool_decide.
Qed.

Lemma root_dependencies_spec fuel cls st cd deps :
  classes st !! cls = Some cd →
  dependencies cd = Some deps →
  root_dependencies (S fuel) cls st
  = (Returns (if bool_decide (Class cls ∈ deps) then [] else [Class cls]),
     with_heap st (heap st ++ [star cls deps])).
Proof.
  intros Hcls Hdeps. unfold root_dependencies, mbind, M_bind.
  rewrite (dependency_graph_spec _ _ _ _ _ Hcls Hdeps).
  erewrite inspect_spec; [|apply lookup_fresh].
  by rewrite (star_roots cls deps _ (star_inv_star cls deps)).
Qed.

Lemma dependency_graph_O cls st :
  dependency_graph 0 cls st
  = (Aborts OutOfFuel,
     with_heap st (heap st ++ [add_node (Class cls) empty_graph])).
Proof.
  unfold dependency_graph, mbind, M_bind, new_DiGraph.
  erewrite mutate_spec; [|apply lookup_fresh].
  unfold with_heap; cbn [heap classes]. by rewrite insert_fresh.
Qed.

Lemma dependency_graph_undeclared fuel cls st :
  classes st !! cls = None →
  dependency_graph (S fuel) cls st
  = (Aborts DanglingRef,
     with_heap st (heap st ++ [add_node (Class cls) empty_graph])).
Proof.
  intros Hcls. unfold dependency_graph, mbind, M_bind, new_DiGraph.
  erewrite mutate_spec; [|apply lookup_fresh].
  unfold with_heap; cbn [heap classes]. rewrite insert_fresh.
  cbn [_add_dependencies_to_graph].
  unfold mbind, M_bind, getattr. cbn [classes]. by rewrite Hcls.
Qed.

Lemma dependency_graph_closed fuel cls st :
  dependency_graph fuel cls st
  = (relay (graph_of fuel cls (classes st)) (length (heap st)),
     with_heap st
       (heap st ++ [match graph_of fuel cls (classes st) with
                    | Returns g => g
                    | _ => add_node (Class cls) empty_graph
                    end])).
Proof.
  unfold graph_of. destruct fuel as [|fuel']; [apply dependency_graph_O|].
  destruct (classes st !! cls) as [cd|] eqn:Hcls;
    [|by apply dependency_graph_undeclared].
  destruct (dependencies cd) as [deps|] eqn:Hdeps.
  - by eapply dependency_graph_spec.
  - by eapply dependency_graph_None.
Qed.

Lemma root_dependencies_closed fuel cls st :
  root_dependencies fuel cls st
  = (match graph_of fuel cls (classes st) with
     | Returns g =>
         Returns (List.filter
                    (λ node, bool_decide (predecessors g node = [])) (nodes g))
     | Raises e => Raises e
     | Aborts r => Aborts r
     end,
     (dependency_graph fuel cls st).2).
Proof.
  unfold root_dependencies, mbind, M_bind. rewrite dependency_graph_closed.
  destruct (graph_of fuel cls (classes st)) as [g|e|r]; simpl; [|done..].
  erewrite inspect_spec; [done|apply lookup_fresh].
Qed.

Lemma assert_no_cyclic_dependencies_closed fuel cls st :
  assert_no_cyclic_dependencies fuel cls st
  = (match graph_of fuel cls (classes st) with
     | Returns g =>
         if is_directed_acyclic_graph g then Returns ()
         else Raises
                (CyclicDependencyException "Dependencies do not form a DAG.")
     | Raises e => Raises e
     | Aborts r => Aborts r
     end,
     (dependency_graph fuel cls st).2).
Proof.
  unfold assert_no_cyclic_dependencies, mbind, M_bind.
  rewrite dependency_graph_closed.
  destruct (graph_of fuel cls (classes st)) as [g|e|r]; simpl; [|done..].
  erewrite inspect_spec; [|apply lookup_fresh].
  by destruct (is_directed_acyclic_graph g).
Qed.

(** No operation touches the class objects or a graph that existed
    before the call. *)
Lemma dependency_graph_frame fuel cls st :
  classes (dependency_graph fuel cls st).2 = classes st ∧
  heap st `prefix_of` heap (dependency_graph fuel cls st).2.
Proof.
  rewrite dependency_graph_closed. simpl. split; [done|by apply prefix_app_r].
Qed.

(** ** Building the graph *)

Import Declarations.

(** C1. On the diamond ([A] depends on [B] and [C], both depend on [E])
    [dependency_graph] returns a graph with the three nodes [A], [B], [C]
    and the two edges [A -> B], [A -> C]: [E] and the edges into it are
    missing.  On the chain [A -> B -> "C"] it returns the two nodes [A],
    [B] and the single edge [A -> B].  The nested call documented as
    "Recursively add dependencies to the graph" is never made, whatever
    the budget. *)
Theorem dependency_graph_stops_at_direct_dependencies (fuel : nat) :
  dependency_graph (S fuel) A diamond
  = (Returns 0,
     with_heap diamond
       [{| nodes := [Class A; Class B; Class C];
           edges := [(Class A, Class B); (Class A, Class C)] |}])
  ∧ dependency_graph (S fuel) A chain
  = (Returns 0,
     with_heap chain
       [{| nodes := [Class A; Class B]; edges := [(Class A, Class B)] |}]).
Proof.
  split.
  - by rewrite (dependency_graph_spec fuel A diamond _ _ eq_refl eq_refl).
  - by rewrite (dependency_graph_spec fuel A chain _ _ eq_refl eq_refl).
Qed.

(** Whatever the declarations, the graph that is built holds the root, its
    direct dependencies, and the edges from the root to them: no edge
    leaves a dependency. *)
Lemma dependency_graph_has_direct_edges_only fuel cls st cd deps :
  classes st !! cls = Some cd →
  dependencies cd = Some deps →
  ∃ g, dependency_graph (S fuel) cls st
       = (Returns (length (heap st)), with_heap st (heap st ++ [g]))
    ∧ (∀ n, n ∈ nodes g ↔ n = Class cls ∨ n ∈ deps)
    ∧ (∀ u v, (u, v) ∈ edges g ↔ u = Class cls ∧ v ∈ deps).
Proof.
  intros Hcls Hdeps. exists (star cls deps).
  destruct (star_inv_star cls deps) as [_ Hn He _].
  split_and!; [|done..]. exact (dependency_graph_spec _ _ _ _ _ Hcls Hdeps).
Qed.

(** C5. On [class F(Feature): pass], whose [dependencies] is the default
    None, building the graph raises [TypeError]. *)
Lemma dependency_graph_raises_on_default_dependencies :
  classes bare_subclass !! 1
  = Some {| class_name := "F"; dependencies := None |}
  ∧ (dependency_graph 1 1 bare_subclass).1
    = Raises (TypeError "'NoneType' object is not iterable")
  ∧ ¬ ∃ graph, (dependency_graph 1 1 bare_subclass).1 = Returns graph.
Proof.
  split_and!; [reflexivity..|]. intros [graph Hrun]. discriminate Hrun.
Qed.

(** C5, amended. For every descriptor set, cyclic or not, and for every
    budget that admits the outermost call, building the graph of a
    declared feature ends: it returns a fresh graph when the feature's
    [dependencies] is a list, and raises [TypeError] when it is None.  It
    never fails on a cycle and never runs on. *)
Theorem dependency_graph_returns_unless_None (fuel : nat) (cls : cid)
    (st : State) (cd : ClassDef) :
  classes st !! cls = Some cd →
  match dependencies cd with
  | Some deps =>
      ∃ g, dependency_graph (S fuel) cls st
           = (Returns (length (heap st)), with_heap st (heap st ++ [g]))
  | None =>
      (dependency_graph (S fuel) cls st).1
      = Raises (TypeError "'NoneType' object is not iterable")
  end.
Proof.
  intros Hcls. destruct (dependencies cd) as [deps|] eqn:Hdeps.
  - exists (star cls deps). exact (dependency_graph_spec _ _ _ _ _ Hcls Hdeps).
  - by rewrite (dependency_graph_None _ _ _ _ Hcls Hdeps).
Qed.

Lemma dependency_graph_returns_unless_None_witness :
  classes two_cycle !! A
  = Some {| class_name := "A"; dependencies := Some [Class B] |}
  ∧ ∃ g, dependency_graph 1 A two_cycle = (Returns 0, with_heap two_cycle [g]).
Proof.
  split; [reflexivity|].
  exact (dependency_graph_returns_unless_None 0 A two_cycle
           {| class_name := "A"; dependencies := Some [Class B] |} eq_refl).
Defined.

(** Only the validation step fails on a cycle it can see. *)
Lemma self_loop_builds_then_fails_validation fuel :
  (dependency_graph (S fuel) A self_loop).1 = Returns 0 ∧
  (assert_no_cyclic_dependencies (S fuel) A self_loop).1
  = Raises (CyclicDependencyException "Dependencies do not form a DAG.").
Proof.
  split.
  - by rewrite (dependency_graph_spec fuel A self_loop _ _ eq_refl eq_refl).
  - by rewrite (assert_no_cyclic_dependencies_spec fuel A self_loop _ _
                  eq_refl eq_refl).
Qed.

(** ** Validation *)

(** [assert_no_cyclic_dependencies] raises exactly when the class lists
    itself among its direct dependencies. *)
Lemma assert_raises_iff_self_listed fuel cls st cd deps :
  classes st !! cls = Some cd →
  dependencies cd = Some deps →
  (assert_no_cyclic_dependencies (S fuel) cls st).1
  = Raises (CyclicDependencyException "Dependencies do not form a DAG.")
  ↔ Class cls ∈ deps.
Proof.
  intros Hcls Hdeps.
  rewrite (assert_no_cyclic_dependencies_spec _ _ _ _ _ Hcls Hdeps). simpl.
  case_bool_decide; naive_solver.
Qed.

(** Declarations without cycle pass the validation. *)
Lemma assert_returns_on_acyclic_declarations fuel cls st cd deps :
  classes st !! cls = Some cd →
  dependencies cd = Some deps →
  ¬ lists_itself st cls →
  (assert_no_cyclic_dependencies (S fuel) cls st).1 = Returns ().
Proof.
  intros Hcls Hdeps Hacyclic.
  rewrite (assert_no_cyclic_dependencies_spec _ _ _ _ _ Hcls Hdeps). simpl.
  rewrite bool_decide_eq_false_2; [done|]. intros Hself.
  apply Hacyclic, tc_once. by exists cd, deps.
Qed.

Lemma two_cycle_lists :
  lists two_cycle A B ∧ lists two_cycle B A.
Proof.
  split; eexists _, _; (split_and!; [reflexivity|reflexivity|]);
    apply list_elem_of_singleton; reflexivity.
Qed.

(** C3. [A] depends on [B] and [B] on [A], so each lists itself
    transitively; [assert_no_cyclic_dependencies] returns None for both
    without raising [CyclicDependencyException], because the graph it
    checks holds one edge only. *)
Theorem assert_no_cyclic_dependencies_misses_two_cycle (fuel : nat) :
  lists_itself two_cycle A ∧ lists_itself two_cycle B
  ∧ assert_no_cyclic_dependencies (S fuel) A two_cycle
  = (Returns (),
     with_heap two_cycle
       [{| nodes := [Class A; Class B]; edges := [(Class A, Class B)] |}])
  ∧ assert_no_cyclic_dependencies (S fuel) B two_cycle
  = (Returns (),
     with_heap two_cycle
       [{| nodes := [Class B; Class A]; edges := [(Class B, Class A)] |}]).
Proof.
  destruct two_cycle_lists as [HAB HBA]. split_and!.
  - eapply tc_l; [exact HAB|by apply tc_once].
  - eapply tc_l; [exact HBA|by apply tc_once].
  - by rewrite (assert_no_cyclic_dependencies_spec fuel A two_cycle _ _
                  eq_refl eq_refl).
  - by rewrite (assert_no_cyclic_dependencies_spec fuel B two_cycle _ _
                  eq_refl eq_refl).
Qed.

(** ** Root dependencies *)

(** What [root_dependencies] returns are the nodes without incoming edge
    of the graph it has built. *)
Lemma root_dependencies_returned_nodes fuel cls st l st' :
  root_dependencies fuel cls st = (Returns l, st') →
  ∃ graph g,
    dependency_graph fuel cls st = (Returns graph, st') ∧
    heap st' !! graph = Some g ∧
    ∀ n, n ∈ l ↔ n ∈ nodes g ∧ ∀ m, (m, n) ∉ edges g.
Proof.
  intros Hrun. rewrite root_dependencies_closed in Hrun.
  pose proof (dependency_graph_closed fuel cls st) as Hbuild.
  destruct (graph_of fuel cls (classes st)) as [g|e|r]; [|done..].
  injection Hrun as <- <-. rewrite Hbuild. simpl.
  exists (length (heap st)), g. split_and!; [done|apply lookup_fresh|].
  intros n. rewrite list_elem_of_In, filter_In, <-list_elem_of_In.
  by rewrite bool_decide_eq_true, predecessors_nil.
Qed.

(** C2. On the diamond ([A] depends on [B] and [C], both depend on [E])
    [root_dependencies] returns [[A]], not [[E]]; on the chain
    [A -> B -> "C"] it returns [[A]], not [["C"]].  The method documented
    as "Root dependencies of the dependency graph" keeps the nodes
    without predecessor, and every edge runs from a feature to its
    dependency, so what it returns is the class it was called on and
    never a dependency. *)
Theorem root_dependencies_returns_the_root_not_the_leaves (fuel : nat) :
  (root_dependencies (S fuel) A diamond).1 = Returns [Class A]
  ∧ (root_dependencies (S fuel) A diamond).1 ≠ Returns [Class E]
  ∧ (root_dependencies (S fuel) A chain).1 = Returns [Class A]
  ∧ (root_dependencies (S fuel) A chain).1 ≠ Returns [Str "C"].
Proof.
  rewrite (root_dependencies_spec fuel A diamond _ _ eq_refl eq_refl).
  rewrite (root_dependencies_spec fuel A chain _ _ eq_refl eq_refl).
  vm_compute. split_and!; congruence.
Qed.

(** ** Repeated calls *)

(** C8. Two successive calls of [dependency_graph] on the same class
    leave the class objects and every older graph as they were; when the
    first returns a graph, the second returns another heap object with
    the same nodes and edges, and otherwise it ends the same way.  Two
    successive calls of [root_dependencies] give the same answer. *)
Theorem graph_queries_are_repeatable (fuel : nat) (cls : cid) (st : State) :
  let run1 := dependency_graph fuel cls st in
  let run2 := dependency_graph fuel cls run1.2 in
  let roots1 := root_dependencies fuel cls st in
  let roots2 := root_dependencies fuel cls roots1.2 in
  classes run1.2 = classes st ∧ classes run2.2 = classes st
  ∧ heap st `prefix_of` heap run1.2 ∧ heap run1.2 `prefix_of` heap run2.2
  ∧ match run1.1 with
    | Returns graph1 =>
        ∃ graph2 g, run2.1 = Returns graph2 ∧ graph1 ≠ graph2 ∧
          heap run2.2 !! graph1 = Some g ∧ heap run2.2 !! graph2 = Some g
    | Raises e => run2.1 = Raises e
    | Aborts r => run2.1 = Aborts r
    end
  ∧ roots2.1 = roots1.1
  ∧ classes roots2.2 = classes st
  ∧ heap st `prefix_of` heap roots1.2 ∧ heap roots1.2 `prefix_of` heap roots2.2.
Proof.
  intros run1 run2 roots1 roots2.
  destruct (dependency_graph_frame fuel cls st) as [Hc1 Hp1].
  destruct (dependency_graph_frame fuel cls run1.2) as [Hc2 Hp2].
  fold run1 in Hc1, Hp1. fold run2 in Hc2, Hp2.
  assert (roots1.2 = run1.2) as Hr1
    by (unfold roots1; by rewrite root_dependencies_closed).
  assert (roots2.2 = run2.2) as Hr2.
  { unfold roots2. rewrite root_dependencies_closed. simpl. by rewrite Hr1. }
  split_and!; try done; try congruence.
  - unfold run2. rewrite dependency_graph_closed. rewrite Hc1.
    unfold run1. rewrite dependency_graph_closed.
    destruct (graph_of fuel cls (classes st)) as [g|e|r]; simpl; [|done..].
    exists (length (heap st ++ [g])), g.
    split_and!; [done| | |apply lookup_fresh].
    + rewrite length_app. simpl. lia.
    + apply lookup_app_l_Some, lookup_fresh.
  - unfold roots2. rewrite root_dependencies_closed. simpl.
    rewrite Hr1, Hc1. unfold roots1. by rewrite root_dependencies_closed.
Qed.

(** ** The default [dependencies = None] *)

(** C10. On a declared class whose [dependencies] is None, each of
    [dependency_graph], [assert_no_cyclic_dependencies] and
    [root_dependencies] raises the [TypeError] of iterating None. *)
Theorem graph_operations_raise_on_None (fuel : nat) (cls : cid) (st : State)
    (cd : ClassDef) :
  classes st !! cls = Some cd →
  dependencies cd = None →
  (dependency_graph (S fuel) cls st).1
  = Raises (TypeError "'NoneType' object is not iterable")
  ∧ (assert_no_cyclic_dependencies (S fuel) cls st).1
  = Raises (TypeError "'NoneType' object is not iterable")
  ∧ (root_dependencies (S fuel) cls st).1
  = Raises (TypeError "'NoneType' object is not iterable").
Proof.
  intros Hcls Hdeps.
  rewrite dependency_graph_closed, assert_no_cyclic_dependencies_closed,
    root_dependencies_closed.
  unfold graph_of. by rewrite Hcls, Hdeps.
Qed.

Lemma graph_operations_raise_on_None_witness :
  classes bare_subclass !! 1 = Some {| class_name := "F"; dependencies := None |}
  ∧ (dependency_graph 1 1 bare_subclass).1
    = Raises (TypeError "'NoneType' object is not iterable")
  ∧ (assert_no_cyclic_dependencies 1 1 bare_subclass).1
    = Raises (TypeError "'NoneType' object is not iterable")
  ∧ (root_dependencies 1 1 bare_subclass).1
    = Raises (TypeError "'NoneType' object is not iterable").
Proof.
  split; [reflexivity|].
  apply (graph_operations_raise_on_None 0 1 bare_subclass
           {| class_name := "F"; dependencies := None |}); reflexivity.
Defined.

(** ** The metaclass *)

(** The test [["Feature" not in bases]] compares a string with class
    objects, so it always holds. *)
Lemma Feature_string_not_in_bases (bases : list cid) :
  Str "Feature" ∉ Class <$> bases.
Proof. intros (c & [=] & _)%list_elem_of_fmap. Qed.

(** C4. [FeatureMeta.__init__] returns at its first test for every class
    statement, also for one whose namespace lacks the required classmethod
    [compute]: [MissingMethodException] is never raised, and
    [class F(Feature)] with an empty body is accepted. *)
Theorem FeatureMeta_init_accepts_every_class (name : string)
    (bases : list cid) (namespace : list (string * attr))
    (required : list string) :
  FeatureMeta_init name bases namespace required = Returns ()
  ∧ FeatureMeta_init "F" [0] [] _required_class_methods = Returns ().
Proof.
  split; [|reflexivity]. unfold FeatureMeta_init.
  by rewrite (bool_decide_eq_false_2 _ (Feature_string_not_in_bases bases)).
Qed.

End GraphProofs.

(** * The pandas executor *)

Module ExecutorProofs.
Import FsLite.

Lemma bind_Returns_inv {St X Y} (m : M St X) (k : X → M St Y) s y s' :
  (m ≫= k) s = (Returns y, s') →
  ∃ x s1, m s = (Returns x, s1) ∧ k x s1 = (Returns y, s').
Proof.
  unfold mbind, M_bind. destruct (m s) as [[x|e|r] s1]; [by eauto|done..].
Qed.

Lemma bind_run {St X Y} (m : M St X) (k : X → M St Y) s x s1 :
  m s = (Returns x, s1) → (m ≫= k) s = k x s1.
Proof. intros Hm. unfold mbind, M_bind. by rewrite Hm. Qed.

Lemma length_suffixed name n : length (suffixed name n) = n.
Proof. unfold suffixed. by rewrite length_fmap, length_seq. Qed.

Section executor.
Context {rows : Type}.
Context (take_column : rows → nat → rows).
Context (align_rows : list rows → outcome rows).
Implicit Types (h : Heap rows) (feature : Feature rows) (df : DataFrame rows).

Lemma load_Returns_inv r h df h' :
  load r h = (Returns df, h') → h' = h ∧ h !! r = Some df.
Proof.
  unfold load. destruct (h !! r) as [df'|]; [|done]. by intros [= -> ->].
Qed.

(** Renaming the output: the last three lines of [compute_feature]. *)
Lemma rename_output name output h df :
  h !! output = Some df →
  (df ← load output;
   set_columns output
     ((λ i, name +:+ "_" +:+ str i) <$> seq 0 (length (columns df)));;
   mret output) h
  = (Returns output,
     <[output := {| columns := suffixed name (length (columns df));
                    body := body df |}]> h).
Proof.
  intros Hout. unfold mbind, M_bind, load, set_columns. rewrite Hout.
  fold (suffixed name (length (columns df))).
  rewrite Hout, length_suffixed. by rewrite bool_decide_eq_true_2.
Qed.

Lemma compute_feature_unfold input feature h :
  compute_feature take_column input feature h
  = ((if bool_decide (0 < length (index_columns feature)) then
        raise (ValueError index_columns_message)
      else mret ()) ≫= λ _,
     (match compute feature with
      | None =>
          df ← load input;
          if negb (bool_decide (name feature ∈ columns df)) then
            raise (ValueError
              ("Feature " +:+ name feature +:+ " is not in input table."))
          else getitem_to_frame take_column input (name feature)
      | Some f =>
          output ← f input;
          match output with
          | FrameRef r => mret r
          | NoneValue | OtherValue _ =>
              raise (ValueError
                ("Feature " +:+ name feature +:+ " did not return a DataFrame."))
          end
      end) ≫= λ output,
     (df ← load output;
      set_columns output
        ((λ i, name feature +:+ "_" +:+ str i)
           <$> seq 0 (length (columns df)));;
      mret output)) h.
Proof. reflexivity. Qed.

(** Every frame that [compute_feature] returns has been relabelled. *)
Lemma compute_feature_Returns input feature h out h' :
  compute_feature take_column input feature h = (Returns out, h') →
  ∃ df, h' !! out = Some df ∧
        columns df = suffixed (name feature) (length (columns df)).
Proof.
  rewrite compute_feature_unfold.
  intros (_ & h1 & _ & Hrest)%bind_Returns_inv.
  apply bind_Returns_inv in Hrest as (output & h2 & _ & Hrename).
  destruct (h2 !! output) as [df|] eqn:Hout.
  - rewrite (rename_output _ _ _ _ Hout) in Hrename.
    injection Hrename as <- <-. eexists. split.
    + apply list_lookup_insert_eq. by eapply lookup_lt_Some.
    + simpl. by rewrite length_suffixed.
  - unfold mbind, M_bind, load in Hrename. by rewrite Hout in Hrename.
Qed.

(** ** Column features *)

(** C6. For a feature made by [column], the executor does not read the
    column of that name from the input table: it calls the compute
    step, which returns None, and raises [ValueError] because None is
    not a DataFrame.  This holds for every input, also when the table
    has the column. *)
Theorem compute_feature_rejects_column (input : ref) (label : string) h :
  Feature_call (column label) input h = (Returns NoneValue, h)
  ∧ compute_feature take_column input (column label) h
    = (Raises (ValueError
                 ("Feature " +:+ label +:+ " did not return a DataFrame.")),
       h).
Proof. split; reflexivity. Qed.

Lemma positions_nil_iff label cols k :
  positions label cols k = [] ↔ label ∉ cols.
Proof.
  revert k. induction cols as [|c cols IH]; intros k; simpl.
  - split; [intros _; apply not_elem_of_nil|done].
  - rewrite not_elem_of_cons. case_bool_decide as Hc; simpl.
    + split; [done|]. intros [? _]. by subst.
    + rewrite IH. split; [|by intros [_ ?]].
      intros ?. split; [congruence|done].
Qed.

(** The branch that does read the column is taken by features whose
    [compute] is None, which [column] does not make. *)
Lemma compute_feature_reads_column_without_compute input label d v deps h df i :
  h !! input = Some df →
  positions label (columns df) 0 = [i] →
  compute_feature take_column input
    {| name := label; compute := None; descr := d; version := v;
       dependencies := deps; index_columns := [] |} h
  = (Returns (length h),
     h ++ [{| columns := [label +:+ "_0"];
              body := take_column (body df) i |}]).
Proof.
  intros Hin Hpos. rewrite compute_feature_unfold.
  cbn [index_columns compute name].
  assert (label ∈ columns df) as Hmem.
  { destruct (decide (label ∈ columns df)) as [|Hno]; [done|].
    apply (positions_nil_iff _ _ 0) in Hno. by rewrite Hno in Hpos. }
  erewrite bind_run; [|reflexivity].
  erewrite bind_run; last first.
  { erewrite bind_run; [|unfold load; by rewrite Hin].
    rewrite (bool_decide_eq_true_2 _ Hmem). cbn [negb].
    unfold getitem_to_frame.
    erewrite bind_run; [|unfold load; by rewrite Hin].
    rewrite Hpos. reflexivity. }
  rewrite (rename_output label _ _ _
             (list_lookup_middle h [] _ (length h) eq_refl)).
  rewrite insert_app_r_alt by done. by rewrite Nat.sub_diag.
Qed.

(** ** Rejected features *)

(** C7. A feature that declares index columns, or whose compute step
    returns something that is not a DataFrame, makes [compute_feature]
    raise [ValueError]; so does the store's [compute] when the feature
    heads the list.  The index columns are tested first. *)
Theorem pandas_executor_rejects (input : ref) feature h :
  index_columns feature ≠ []
  ∨ (∃ f v h', compute feature = Some f ∧ f input h = (Returns v, h') ∧
               ∀ r, v ≠ FrameRef r) →
  ∃ h', let error :=
          ValueError
            (if bool_decide (index_columns feature = [])
             then "Feature " +:+ name feature +:+ " did not return a DataFrame."
             else index_columns_message) in
    compute_feature take_column input feature h = (Raises error, h')
    ∧ ∀ rest,
        PandasFeatureStore_compute take_column align_rows input
          (feature :: rest) h
        = (Raises error, h').
Proof.
  intros Hbad.
  assert (∃ h', compute_feature take_column input feature h
    = (Raises (ValueError
         (if bool_decide (index_columns feature = [])
          then "Feature " +:+ name feature +:+ " did not return a DataFrame."
          else index_columns_message)), h')) as [h' Hraise].
  { rewrite compute_feature_unfold.
    destruct (index_columns feature) as [|c cs] eqn:Hidx.
    - destruct Hbad as [?|(f & v & h' & Hf & Hrun & Hv)]; [done|].
      exists h'. rewrite Hf. unfold mbind, M_bind. simpl. rewrite Hrun.
      destruct v as [|r|repr]; [done| |done]. by destruct (Hv r).
    - exists h. unfold mbind, M_bind.
      rewrite bool_decide_eq_true_2 by (simpl; lia). done. }
  exists h'. split; [done|]. intros rest.
  unfold PandasFeatureStore_compute. cbn [list_comprehension].
  unfold mbind, M_bind. by rewrite Hraise.
Qed.

(** ** The merged table *)

(** With compute functions that return frames of their own, each call of
    [compute_feature] adds one frame to the heap, relabelled. *)
Lemma compute_feature_new_frame (input : ref) feature h out h' :
  (∀ f, compute feature = Some f → returns_a_new_frame f input) →
  compute_feature take_column input feature h = (Returns out, h') →
  ∃ n b, out = length h ∧
         h' = h ++ [{| columns := suffixed (name feature) n; body := b |}].
Proof.
  intros Hnew. rewrite compute_feature_unfold.
  intros (u & h1 & Hguard & Hrest)%bind_Returns_inv.
  assert (h1 = h) as Hh1.
  { destruct (bool_decide _); [done|]. by injection Hguard as _ <-. }
  subst h1. clear Hguard.
  apply bind_Returns_inv in Hrest as (output & h2 & Hbranch & Hrename).
  assert (∃ df, output = length h ∧ h2 = h ++ [df]) as (df & -> & ->).
  { destruct (compute feature) as [f|] eqn:Hf.
    - apply bind_Returns_inv in Hbranch as (v & h3 & Hrun & Hv).
      destruct (Hnew f eq_refl _ _ _ Hrun) as (df & -> & ->).
      injection Hv as <- <-. eauto.
    - apply bind_Returns_inv in Hbranch as (df & h3 & Hload & Hsel).
      apply load_Returns_inv in Hload as [-> Hin].
      destruct (negb _); [done|]. unfold getitem_to_frame in Hsel.
      apply bind_Returns_inv in Hsel as (df' & h3 & Hload & Hsel).
      apply load_Returns_inv in Hload as [-> _].
      destruct (positions _ _ _) as [|i [|??]]; [done| |done].
      injection Hsel as <- <-. eauto. }
  rewrite (rename_output _ _ _ _ (list_lookup_middle h [] _ (length h) eq_refl))
    in Hrename.
  injection Hrename as <- <-. exists (length (columns df)), (body df).
  split; [done|]. rewrite insert_app_r_alt by done. by rewrite Nat.sub_diag.
Qed.

Lemma list_comprehension_new_frames (input : ref) features : ∀ h outs h',
  Forall (λ feature, ∀ f, compute feature = Some f →
                          returns_a_new_frame f input) features →
  list_comprehension features (compute_feature take_column input) h
  = (Returns outs, h') →
  ∃ frames, h' = h ++ frames ∧ outs = seq (length h) (length frames) ∧
    Forall2 (λ feature df, ∃ n, columns df = suffixed (name feature) n)
      features frames.
Proof.
  induction features as [|feature features IH]; intros h outs h' Hnew Hrun.
  - injection Hrun as <- <-. exists []. by rewrite app_nil_r.
  - apply Forall_cons in Hnew as [Hnew1 Hnew].
    cbn [list_comprehension] in Hrun.
    apply bind_Returns_inv in Hrun as (out & h1 & Hout & Hrun).
    apply bind_Returns_inv in Hrun as (outs' & h2 & Houts & Hret).
    injection Hret as <- <-.
    apply (compute_feature_new_frame _ _ _ _ _ Hnew1) in Hout
      as (n & b & -> & ->).
    apply (IH _ _ _ Hnew) in Houts as (frames & -> & -> & Hall).
    eexists (_ :: frames). split_and!.
    + by rewrite <-(assoc_L (++)).
    + rewrite length_app. simpl. by rewrite Nat.add_1_r.
    + constructor; [by eexists|done].
Qed.

Lemma load_new_frames (frames : list (DataFrame rows)) : ∀ h,
  list_comprehension (seq (length h) (length frames)) load (h ++ frames)
  = (Returns frames, h ++ frames).
Proof.
  induction frames as [|df frames IH]; intros h; [done|].
  cbn [length seq list_comprehension].
  erewrite bind_run; last first.
  { unfold load. by rewrite list_lookup_middle. }
  specialize (IH (h ++ [df])).
  rewrite length_app, Nat.add_1_r, <-(assoc_L (++)) in IH. simpl in IH.
  erewrite bind_run; [|exact IH]. done.
Qed.

(** The labels of the merged table are those of the features' outputs,
    feature after feature; [widths] are the numbers of columns the
    features produced. *)
Lemma merged_columns (input : ref) features h merged h' :
  Forall (λ feature, ∀ f, compute feature = Some f →
                          returns_a_new_frame f input) features →
  PandasFeatureStore_compute take_column align_rows input features h
  = (Returns merged, h') →
  ∃ df widths, h' !! merged = Some df ∧
    length widths = length features ∧
    columns df
    = concat (zip_with (λ feature n, suffixed (name feature) n)
                features widths).
Proof.
  intros Hnew Hrun. unfold PandasFeatureStore_compute in Hrun.
  apply bind_Returns_inv in Hrun as (outs & h1 & Houts & Hcat).
  apply (list_comprehension_new_frames _ _ _ _ _ Hnew) in Houts
    as (frames & -> & -> & Hall).
  assert (columns <$> frames
          = zip_with (λ feature n, suffixed (name feature) n) features
              (length ∘ columns <$> frames)) as Hlabels.
  { clear -Hall. induction Hall as [|feature df fs dfs [n Hn] _ IH]; [done|].
    cbn [fmap list_fmap zip_with compose]. f_equal; [|exact IH].
    by rewrite Hn, length_suffixed. }
  apply Forall2_length in Hall.
  unfold pd_concat in Hcat.
  rewrite (bind_run _ _ _ _ _ (load_new_frames frames h)) in Hcat.
  destruct frames as [|df frames]; [done|].
  apply bind_Returns_inv in Hcat as (aligned & h2 & Halign & Halloc).
  injection Halign as _ <-. injection Halloc as <- <-.
  eexists _, (length ∘ columns <$> (df :: frames)).
  split_and!; [by rewrite list_lookup_middle| |].
  - by rewrite length_fmap.
  - cbn [columns]. by rewrite <-Hlabels.
Qed.

(** ** Output labels *)

(** C9, amended. The executor relabels the output of every feature it
    computes with the feature's name, an underscore and the position of
    the column, whether the feature produced one column or several.  The
    table merged from one feature carries these labels, and so does,
    feature after feature, the table merged from several features whose
    compute functions return frames of their own. *)
Theorem output_columns_are_always_suffixed :
  (∀ (input : ref) feature h out h',
     compute_feature take_column input feature h = (Returns out, h') →
     ∃ df, h' !! out = Some df ∧
           columns df = suffixed (name feature) (length (columns df)))
  ∧ (∀ (input : ref) feature h merged h',
       PandasFeatureStore_compute take_column align_rows input [feature] h
       = (Returns merged, h') →
       ∃ df, h' !! merged = Some df ∧
             columns df = suffixed (name feature) (length (columns df)))
  ∧ (∀ (input : ref) features h merged h',
       Forall (λ feature, ∀ f, compute feature = Some f →
                               returns_a_new_frame f input) features →
       PandasFeatureStore_compute take_column align_rows input features h
       = (Returns merged, h') →
       ∃ df widths, h' !! merged = Some df ∧
         length widths = length features ∧
         columns df
         = concat (zip_with (λ feature n, suffixed (name feature) n)
                     features widths)).
Proof.
  split_and!; [apply compute_feature_Returns| |apply merged_columns].
  intros input feature h merged h' Hrun.
  unfold PandasFeatureStore_compute in Hrun.
  apply bind_Returns_inv in Hrun as (outs & h1 & Houts & Hcat).
  cbn [list_comprehension] in Houts.
  apply bind_Returns_inv in Houts as (out & h2 & Hout & Houts).
  injection Houts as <- <-.
  apply compute_feature_Returns in Hout as (df & Hdf & Hcols).
  unfold pd_concat in Hcat.
  apply bind_Returns_inv in Hcat as (frames & h3 & Hload & Hcat).
  cbn [list_comprehension] in Hload. unfold mbind, M_bind, load in Hload.
  rewrite Hdf in Hload. injection Hload as <- <-.
  apply bind_Returns_inv in Hcat as (aligned & h4 & Halign & Halloc).
  unfold lift in Halign. unfold allocate in Halloc.
  injection Halign as _ <-. injection Halloc as <- <-.
  eexists. split; [by rewrite list_lookup_middle|].
  simpl. by rewrite app_nil_r.
Qed.

End executor.

(** C9. The table the store computes from the single-column feature [f]
    has the one column [f_0], not [f]. *)
Lemma single_column_feature_is_suffixed :
  let run := PandasFeatureStore_compute take_cells align_cells 0
               [single_column_feature] input_table in
  run.1 = Returns 2
  ∧ columns <$> run.2 !! 2 = Some ["f_0"]
  ∧ columns <$> run.2 !! 2 ≠ Some [name single_column_feature].
Proof. split_and!; [reflexivity|reflexivity|discriminate]. Qed.

(** Merging a one-column and a two-column feature. *)
Example merged_labels_of_two_features :
  PandasFeatureStore_compute take_cells align_cells 0
    [single_column_feature; two_column_feature] input_table
  = (Returns 3,
     input_table ++
       [{| columns := ["f_0"]; body := [[1; 2]%Z] |};
        {| columns := ["pair_0"; "pair_1"]; body := [[2; 4]; [6; 8]]%Z |};
        {| columns := ["f_0"; "pair_0"; "pair_1"];
           body := [[1; 2]; [2; 4]; [6; 8]]%Z |}]).
Proof. reflexivity. Qed.

Lemma output_columns_are_always_suffixed_witness :
  compute_feature take_cells 0 single_column_feature input_table
  = (Returns 1, input_table ++ [{| columns := ["f_0"]; body := [[1; 2]%Z] |}])
  ∧ ∃ df, (input_table ++ [{| columns := ["f_0"]; body := [[1; 2]%Z] |}]) !! 1
          = Some df ∧
          columns df = suffixed (name single_column_feature) (length (columns df)).
Proof.
  split; [reflexivity|].
  apply (proj1 (output_columns_are_always_suffixed take_cells align_cells)
           0 single_column_feature input_table).
  reflexivity.
Defined.

Lemma pandas_executor_rejects_witness :
  (index_columns indexed_feature ≠ [] ∧
   ∃ h', compute_feature take_cells 0 indexed_feature input_table
         = (Raises (ValueError index_columns_message), h')
         ∧ ∀ rest, PandasFeatureStore_compute take_cells align_cells 0
                     (indexed_feature :: rest) input_table
                   = (Raises (ValueError index_columns_message), h'))
  ∧ ∃ h', compute_feature take_cells 0 series_feature input_table
          = (Raises (ValueError "Feature s did not return a DataFrame."), h')
          ∧ ∀ rest, PandasFeatureStore_compute take_cells align_cells 0
                      (series_feature :: rest) input_table
                    = (Raises (ValueError "Feature s did not return a DataFrame."), h').
Proof.
  split; [split; [discriminate|]|].
  - apply (pandas_executor_rejects take_cells align_cells 0 indexed_feature
             input_table).
    left. discriminate.
  - apply (pandas_executor_rejects take_cells align_cells 0 series_feature
             input_table).
    right. exists (λ table, mret (OtherValue "Series")), (OtherValue "Series"),
      input_table.
    split_and!; [reflexivity|reflexivity|discriminate].
Defined.

End ExecutorProofs.

(** * Further properties of the dependency graph *)

Module GraphExtras.
Import DuckdbFeatureStore Declarations GraphProofs.

Lemma NoDup_edges_add_edge u v g :
  NoDup (edges g) → NoDup (edges (add_edge u v g)).
Proof.
  intros Hnd. unfold add_edge. case_decide as Hin; simpl;
    rewrite !edges_add_node in *; [done|].
  apply NoDup_app. split_and!; [done| |apply NoDup_singleton].
  intros e He He'. apply list_elem_of_singleton in He'. by subst.
Qed.

Lemma NoDup_edges_foldl cls deps : ∀ g,
  NoDup (edges g) → NoDup (edges (foldl (link cls) g deps)).
Proof.
  induction deps as [|dep deps IH]; intros g Hnd; [done|]. simpl.
  apply IH. unfold link. apply NoDup_edges_add_edge.
  by rewrite edges_add_node.
Qed.

(** A dependency that is already linked is skipped whole. *)
Lemma link_again cls seen g dep :
  star_inv cls seen g → dep ∈ seen → link cls g dep = g.
Proof.
  intros Hinv Hdep. unfold link, add_edge.
  assert (add_node dep g = g) as ->.
  { unfold add_node. rewrite decide_True; [done|].
    apply (inv_nodes _ _ _ Hinv). by right. }
  assert (add_node (Class cls) g = g) as ->.
  { unfold add_node. rewrite decide_True; [done|].
    apply (inv_nodes _ _ _ Hinv). by left. }
  assert (add_node dep g = g) as ->.
  { unfold add_node. rewrite decide_True; [done|].
    apply (inv_nodes _ _ _ Hinv). by right. }
  rewrite decide_True; [done|]. by apply (inv_edges _ _ _ Hinv).
Qed.

Lemma star_app cls l1 l2 :
  star cls (l1 ++ l2) = foldl (link cls) (star cls l1) l2.
Proof. unfold star. by rewrite foldl_app. Qed.

(** X1. For every declared class whose [dependencies] is a list, of
    strings, classes or instances in any mix, [dependency_graph] returns
    a fresh graph whose first node is the class, whose nodes are the
    class and its direct dependencies, each once, and whose edges are the
    edges from the class to each direct dependency, each once. *)
Theorem built_graph_shape (fuel : nat) (cls : cid) (st : State)
    (cd : ClassDef) (deps : list pyobj) :
  classes st !! cls = Some cd →
  dependencies cd = Some deps →
  ∃ g tl,
    dependency_graph (S fuel) cls st
    = (Returns (length (heap st)), with_heap st (heap st ++ [g]))
    ∧ nodes g = Class cls :: tl
    ∧ NoDup (nodes g) ∧ NoDup (edges g)
    ∧ (∀ n, n ∈ nodes g ↔ n = Class cls ∨ n ∈ deps)
    ∧ (∀ u v, (u, v) ∈ edges g ↔ u = Class cls ∧ v ∈ deps).
Proof.
  intros Hcls Hdeps.
  destruct (star_inv_star cls deps) as [[tl Hhd] Hn He Hnd].
  exists (star cls deps), tl. split_and!; try done.
  - exact (dependency_graph_spec _ _ _ _ _ Hcls Hdeps).
  - apply NoDup_edges_foldl. simpl. apply NoDup_nil_2.
Qed.

Lemma built_graph_shape_witness :
  classes repeated !! A
  = Some {| class_name := "A";
            dependencies := Some [Class B; Str "x"; Class B; Instance B 0] |}
  ∧ ∃ g tl,
      dependency_graph 1 A repeated
      = (Returns 0, with_heap repeated [g])
      ∧ nodes g = Class A :: tl
      ∧ NoDup (nodes g) ∧ NoDup (edges g)
      ∧ (∀ n, n ∈ nodes g ↔
              n = Class A ∨ n ∈ [Class B; Str "x"; Class B; Instance B 0])
      ∧ (∀ u v, (u, v) ∈ edges g ↔
                u = Class A ∧ v ∈ [Class B; Str "x"; Class B; Instance B 0]).
Proof.
  split; [reflexivity|].
  apply (built_graph_shape 0 A repeated
           {| class_name := "A";
              dependencies := Some [Class B; Str "x"; Class B; Instance B 0] |});
    reflexivity.
Defined.

(** X2. [assert_no_cyclic_dependencies] on a declared class whose
    [dependencies] is a list raises [CyclicDependencyException] when the
    class is among its own direct dependencies and returns None
    otherwise; nothing else decides the outcome. *)
Theorem validation_decided_by_direct_self_listing (fuel : nat) (cls : cid)
    (st : State) (cd : ClassDef) (deps : list pyobj) :
  classes st !! cls = Some cd →
  dependencies cd = Some deps →
  ((assert_no_cyclic_dependencies (S fuel) cls st).1
   = Raises (CyclicDependencyException "Dependencies do not form a DAG.")
   ↔ Class cls ∈ deps)
  ∧ ((assert_no_cyclic_dependencies (S fuel) cls st).1 = Returns ()
     ↔ Class cls ∉ deps).
Proof.
  intros Hcls Hdeps.
  rewrite (assert_no_cyclic_dependencies_spec _ _ _ _ _ Hcls Hdeps). simpl.
  case_bool_decide; split; split; (done || by intros ?).
Qed.

Lemma validation_decided_by_direct_self_listing_witness :
  classes self_loop !! A
  = Some {| class_name := "A"; dependencies := Some [Class A] |}
  ∧ ((assert_no_cyclic_dependencies 1 A self_loop).1
     = Raises (CyclicDependencyException "Dependencies do not form a DAG.")
     ↔ Class A ∈ [Class A])
  ∧ ((assert_no_cyclic_dependencies 1 A self_loop).1 = Returns ()
     ↔ Class A ∉ [Class A]).
Proof.
  split; [reflexivity|].
  apply (validation_decided_by_direct_self_listing 0 A self_loop
           {| class_name := "A"; dependencies := Some [Class A] |});
    reflexivity.
Defined.

(** X3. [root_dependencies] on a declared class whose [dependencies] is a
    list returns the one-element list holding the class itself, or the
    empty list when the class is among its own direct dependencies; it
    never returns a column name or another feature. *)
Theorem root_dependencies_is_the_class_or_nothing (fuel : nat) (cls : cid)
    (st : State) (cd : ClassDef) (deps : list pyobj) :
  classes st !! cls = Some cd →
  dependencies cd = Some deps →
  (root_dependencies (S fuel) cls st).1
  = Returns (if bool_decide (Class cls ∈ deps) then [] else [Class cls]).
Proof.
  intros Hcls Hdeps.
  by rewrite (root_dependencies_spec _ _ _ _ _ Hcls Hdeps).
Qed.

Lemma root_dependencies_is_the_class_or_nothing_witness :
  classes repeated !! A
  = Some {| class_name := "A";
            dependencies := Some [Class B; Str "x"; Class B; Instance B 0] |}
  ∧ (root_dependencies 1 A repeated).1 = Returns [Class A].
Proof.
  split; [reflexivity|].
  exact (root_dependencies_is_the_class_or_nothing 0 A repeated
           {| class_name := "A";
              dependencies := Some [Class B; Str "x"; Class B; Instance B 0] |}
           [Class B; Str "x"; Class B; Instance B 0] eq_refl eq_refl).
Defined.

(** X4. Listing a dependency a second time changes nothing: the graph
    built for a class whose list repeats an earlier entry has the same
    nodes and edges, in the same order, as the graph built without the
    repetition. *)
Theorem relisting_a_dependency_changes_nothing (fuel : nat) (cls : cid)
    (st1 st2 : State) (cd1 cd2 : ClassDef) (l1 l2 : list pyobj)
    (dep : pyobj) :
  classes st1 !! cls = Some cd1 →
  dependencies cd1 = Some (l1 ++ dep :: l2) →
  dep ∈ l1 →
  classes st2 !! cls = Some cd2 →
  dependencies cd2 = Some (l1 ++ l2) →
  ∃ g,
    dependency_graph (S fuel) cls st1
    = (Returns (length (heap st1)), with_heap st1 (heap st1 ++ [g]))
    ∧ dependency_graph (S fuel) cls st2
      = (Returns (length (heap st2)), with_heap st2 (heap st2 ++ [g])).
Proof.
  intros Hcls1 Hdeps1 Hdep Hcls2 Hdeps2. exists (star cls (l1 ++ l2)).
  rewrite (dependency_graph_spec _ _ _ _ _ Hcls1 Hdeps1).
  rewrite (dependency_graph_spec _ _ _ _ _ Hcls2 Hdeps2).
  split; [|done]. do 3 f_equal.
  rewrite !star_app. cbn [foldl].
  by rewrite (link_again cls l1 _ dep (star_inv_star cls l1) Hdep).
Qed.

Lemma relisting_a_dependency_changes_nothing_witness :
  Class B ∈ [Class B; Str "x"]
  ∧ ∃ g,
      dependency_graph 1 A repeated = (Returns 0, with_heap repeated [g])
      ∧ dependency_graph 1 A listed_once
        = (Returns 0, with_heap listed_once [g]).
Proof.
  split; [left|].
  apply (relisting_a_dependency_changes_nothing 0 A repeated listed_once
           {| class_name := "A";
              dependencies := Some [Class B; Str "x"; Class B; Instance B 0] |}
           {| class_name := "A";
              dependencies := Some [Class B; Str "x"; Instance B 0] |}
           [Class B; Str "x"] [Instance B 0] (Class B));
    try reflexivity.
  left.
Defined.

(** X5. Validation and the root query fit together: when
    [assert_no_cyclic_dependencies] returns, [root_dependencies] called
    next on the same class returns exactly that class. *)
Theorem validated_class_is_its_only_root (fuel : nat) (cls : cid)
    (st st' : State) :
  assert_no_cyclic_dependencies fuel cls st = (Returns (), st') →
  (root_dependencies fuel cls st').1 = Returns [Class cls].
Proof.
  intros Hrun. rewrite assert_no_cyclic_dependencies_closed in Hrun.
  destruct (dependency_graph_frame fuel cls st) as [Hclasses _].
  injection Hrun as Hout Hst. rewrite Hst in Hclasses.
  unfold graph_of in Hout.
  destruct fuel as [|fuel']; [done|].
  destruct (classes st !! cls) as [cd|] eqn:Hcls; [|done].
  destruct (dependencies cd) as [deps|] eqn:Hdeps; [|done].
  rewrite (star_acyclic cls deps _ (star_inv_star cls deps)) in Hout.
  rewrite <-Hclasses in Hcls.
  rewrite (root_dependencies_spec _ _ _ _ _ Hcls Hdeps). simpl.
  by case_bool_decide.
Qed.

Lemma validated_class_is_its_only_root_witness :
  assert_no_cyclic_dependencies 1 A diamond
  = (Returns (), with_heap diamond [star A [Class B; Class C]])
  ∧ (root_dependencies 1 A
       (with_heap diamond [star A [Class B; Class C]])).1
    = Returns [Class A].
Proof.
  split; [reflexivity|].
  apply (validated_class_is_its_only_root 1 A diamond). reflexivity.
Defined.

End GraphExtras.

(** * Further properties of the pandas executor *)

Module ExecutorExtras.
Import FsLite ExecutorProofs.

(** ** Labels *)

Lemma to_uint_not_Nil (n : nat) : Nat.to_uint n ≠ Decimal.Nil.
Proof.
  intros Hnil. pose proof (DecimalNat.Unsigned.of_to n) as Hn.
  rewrite Hnil in Hn. simpl in Hn. subst n. discriminate Hnil.
Qed.

Lemma str_inj (i j : nat) : str i = str j → i = j.
Proof.
  unfold str. intros Heq. apply DecimalNat.Unsigned.to_uint_inj.
  pose proof (NilZero.usu _ (to_uint_not_Nil i)) as Hi.
  pose proof (NilZero.usu _ (to_uint_not_Nil j)) as Hj.
  rewrite Heq, Hj in Hi. by injection Hi.
Qed.

Lemma digits_underscore_free (d : Decimal.uint) :
  underscore_free (NilEmpty.string_of_uint d) = true.
Proof. induction d; simpl; done. Qed.

Lemma str_underscore_free (i : nat) : underscore_free (str i) = true.
Proof.
  unfold str, NilZero.string_of_uint.
  destruct (Nat.to_uint i) eqn:Hd; try done;
    rewrite <-Hd at 1; simpl; apply digits_underscore_free.
Qed.

Lemma underscore_in_the_middle (s d : string) :
  underscore_free (s +:+ String "_" d) = false.
Proof.
  induction s as [|c s IH]; simpl; [done|].
  rewrite IH. apply andb_false_r.
Qed.

(** A label splits in one way only into a name, an underscore and a
    number. *)
Lemma label_split (s1 s2 d1 d2 : string) :
  underscore_free d1 = true →
  underscore_free d2 = true →
  s1 +:+ "_" +:+ d1 = s2 +:+ "_" +:+ d2 →
  s1 = s2 ∧ d1 = d2.
Proof.
  intros Hd1 Hd2 Heq.
  change (s1 +:+ String "_" d1 = s2 +:+ String "_" d2) in Heq.
  revert s2 Heq.
  induction s1 as [|c s1 IH]; intros [|c' s2] Heq; simpl in Heq.
  - by injection Heq.
  - injection Heq as _ Heq. subst d1.
    by rewrite (underscore_in_the_middle s2 d2) in Hd1.
  - injection Heq as _ Heq. subst d2.
    by rewrite (underscore_in_the_middle s1 d1) in Hd2.
  - injection Heq as -> Heq. destruct (IH _ Heq) as [-> ->]. done.
Qed.

Lemma label_inj (name1 name2 : string) (i j : nat) :
  name1 +:+ "_" +:+ str i = name2 +:+ "_" +:+ str j →
  name1 = name2 ∧ i = j.
Proof.
  intros Heq.
  destruct (label_split _ _ _ _ (str_underscore_free i)
              (str_underscore_free j) Heq) as [-> Hij].
  split; [done|by apply str_inj].
Qed.

Lemma elem_of_suffixed (x name : string) (n : nat) :
  x ∈ suffixed name n ↔ ∃ i, i < n ∧ x = name +:+ "_" +:+ str i.
Proof.
  unfold suffixed. rewrite list_elem_of_fmap. split.
  - intros (i & -> & Hi%elem_of_seq). exists i. split; [lia|done].
  - intros (i & Hi & ->). exists i. split; [done|]. apply elem_of_seq. lia.
Qed.

Lemma NoDup_suffixed (name : string) (n : nat) : NoDup (suffixed name n).
Proof.
  unfold suffixed. apply NoDup_fmap_2_strong; [|apply NoDup_seq].
  intros i j _ _ Heq. by destruct (label_inj _ _ _ _ Heq).
Qed.

Section more_executor.
Context {rows : Type}.
Context (take_column : rows → nat → rows).
Context (align_rows : list rows → outcome rows).
Implicit Types (h : Heap rows) (feature : Feature rows) (df : DataFrame rows).

(** The three ways of the branch taken when [compute] is None. *)
Lemma direct_read_cases (input : ref) feature h df :
  compute feature = None →
  index_columns feature = [] →
  h !! input = Some df →
  compute_feature take_column input feature h
  = match positions (name feature) (columns df) 0 with
    | [] => (Raises (ValueError ("Feature " +:+ name feature +:+
                                 " is not in input table.")), h)
    | [i] => (Returns (length h),
              h ++ [{| columns := [name feature +:+ "_0"];
                       body := take_column (body df) i |}])
    | _ :: _ :: _ =>
        (Raises (AttributeError
                   "'DataFrame' object has no attribute 'to_frame'"), h)
    end.
Proof.
  intros Hc Hidx Hin. rewrite compute_feature_unfold, Hc, Hidx.
  erewrite bind_run; [|reflexivity].
  destruct (positions (name feature) (columns df) 0) as [|i [|j l]] eqn:Hpos.
  - apply positions_nil_iff in Hpos.
    unfold mbind, M_bind, load. rewrite Hin.
    by rewrite (bool_decide_eq_false_2 _ Hpos).
  - destruct feature as [n c d v deps ic]. simpl in *. subst.
    rewrite <-(compute_feature_reads_column_without_compute take_column
                 input n d v deps h df i Hin Hpos).
    by rewrite compute_feature_unfold.
  - assert (name feature ∈ columns df) as Hmem.
    { destruct (decide (name feature ∈ columns df)) as [|Hno]; [done|].
      apply (positions_nil_iff _ _ 0) in Hno. by rewrite Hno in Hpos. }
    unfold mbind, M_bind, load, getitem_to_frame. rewrite Hin.
    rewrite (bool_decide_eq_true_2 _ Hmem). simpl.
    unfold mbind, M_bind, load. by rewrite Hin, Hpos.
Qed.

(** X6. A feature without compute function whose name labels exactly one
    column of the input table is computed by copying that column into a
    new one-column frame labelled with the name followed by [_0]; the
    input table and every other frame stay as they were. *)
Theorem direct_read_copies_the_column (input : ref) feature h df (i : nat) :
  compute feature = None →
  index_columns feature = [] →
  h !! input = Some df →
  positions (name feature) (columns df) 0 = [i] →
  compute_feature take_column input feature h
  = (Returns (length h),
     h ++ [{| columns := [name feature +:+ "_0"];
              body := take_column (body df) i |}]).
Proof.
  intros Hc Hidx Hin Hpos.
  by rewrite (direct_read_cases _ _ _ _ Hc Hidx Hin), Hpos.
Qed.



(** X9. The store's [compute] on an empty list of features raises
    [ValueError] from [pd.concat]; it does not return an empty table. *)
Theorem compute_of_no_feature_raises (input : ref) h :
  PandasFeatureStore_compute take_column align_rows input [] h
  = (Raises (ValueError "No objects to concatenate"), h).
Proof. reflexivity. Qed.

(** The index columns are tested before anything else is done. *)
Lemma index_columns_first (input : ref) feature h :
  index_columns feature ≠ [] →
  compute_feature take_column input feature h
  = (Raises (ValueError index_columns_message), h).
Proof.
  intros Hidx. rewrite compute_feature_unfold. unfold mbind, M_bind.
  rewrite bool_decide_eq_true_2; [done|].
  destruct (index_columns feature); [done|simpl; lia].
Qed.

Lemma list_comprehension_Returns_inv {X Y} (f : X → M (Heap rows) Y) xs :
  ∀ h ys h',
    list_comprehension xs f h = (Returns ys, h') →
    ∀ x, x ∈ xs → ∃ h1 y h2, f x h1 = (Returns y, h2).
Proof.
  induction xs as [|x0 xs IH]; intros h ys h' Hrun x Hx.
  { by apply elem_of_nil in Hx. }
  cbn [list_comprehension] in Hrun.
  apply bind_Returns_inv in Hrun as (y & h1 & Hy & Hrun).
  apply bind_Returns_inv in Hrun as (ys' & h2 & Hys & _).
  apply elem_of_cons in Hx as [->|Hx]; [by eauto|]. by eapply IH.
Qed.

(** X10. A feature that declares index columns is rejected before its
    compute function is called, so no frame is created or changed; and
    wherever it stands in the list, the store's [compute] does not return
    a table. *)
Theorem index_columns_rejected_anywhere (input : ref) feature
    (features : list (Feature rows)) h :
  index_columns feature ≠ [] →
  feature ∈ features →
  compute_feature take_column input feature h
  = (Raises (ValueError index_columns_message), h)
  ∧ ∀ merged h',
      PandasFeatureStore_compute take_column align_rows input features h
      ≠ (Returns merged, h').
Proof.
  intros Hidx Hin. split; [by apply index_columns_first|].
  intros merged h' Hrun. unfold PandasFeatureStore_compute in Hrun.
  apply bind_Returns_inv in Hrun as (outs & h1 & Houts & _).
  destruct (list_comprehension_Returns_inv _ _ _ _ _ Houts _ Hin)
    as (h2 & out & h3 & Hout).
  by rewrite index_columns_first in Hout.
Qed.

Lemma list_comprehension_stops {X Y} (f : X → M (Heap rows) Y) done :
  ∀ x rest h ys h1 e h2,
    list_comprehension done f h = (Returns ys, h1) →
    f x h1 = (Raises e, h2) →
    list_comprehension (done ++ x :: rest) f h = (Raises e, h2).
Proof.
  induction done as [|x0 done IH]; intros x rest h ys h1 e h2 Hdone Hx.
  - injection Hdone as _ <-. cbn [app list_comprehension].
    unfold mbind, M_bind. by rewrite Hx.
  - cbn [app list_comprehension] in *.
    apply bind_Returns_inv in Hdone as (y & h3 & Hy & Hdone).
    apply bind_Returns_inv in Hdone as (ys' & h4 & Hys & Hret).
    injection Hret as _ <-.
    rewrite (bind_run _ _ _ _ _ Hy).
    unfold mbind at 1, M_bind at 1. by rewrite (IH _ rest _ _ _ _ _ Hys Hx).
Qed.

(** X11. The store's [compute] stops at the first feature whose
    computation raises: it raises that exception, the heap is the one the
    failing computation left, and the features after it are not
    computed. *)
Theorem compute_stops_at_first_failure (input : ref)
    (done rest : list (Feature rows)) feature h (outs : list ref) h1
    (e : exn) h2 :
  list_comprehension done (compute_feature take_column input) h
  = (Returns outs, h1) →
  compute_feature take_column input feature h1 = (Raises e, h2) →
  PandasFeatureStore_compute take_column align_rows input
    (done ++ feature :: rest) h
  = (Raises e, h2).
Proof.
  intros Hdone Hfail. unfold PandasFeatureStore_compute, mbind, M_bind.
  by rewrite (list_comprehension_stops _ _ _ rest _ _ _ _ _ Hdone Hfail).
Qed.

(** X12. An exception raised by a feature's compute function leaves
    [compute_feature] unchanged, with the heap as the function left it:
    the executor neither catches nor wraps it. *)
Theorem compute_exception_passes_through (input : ref) feature
    (f : callable rows) h (e : exn) h' :
  compute feature = Some f →
  index_columns feature = [] →
  f input h = (Raises e, h') →
  compute_feature take_column input feature h = (Raises e, h').
Proof.
  intros Hc Hidx Hrun. rewrite compute_feature_unfold, Hc, Hidx.
  erewrite bind_run; [|reflexivity].
  unfold mbind, M_bind. by rewrite Hrun.
Qed.

(** X13. When the compute function returns a DataFrame, [compute_feature]
    returns that very object, relabelled in place: its cell values and
    every other frame are left as the compute function left them, and no
    copy is made. *)
Theorem output_is_relabelled_in_place (input : ref) feature
    (f : callable rows) h (r : ref) h1 df :
  compute feature = Some f →
  index_columns feature = [] →
  f input h = (Returns (FrameRef r), h1) →
  h1 !! r = Some df →
  compute_feature take_column input feature h
  = (Returns r,
     <[r := {| columns := suffixed (name feature) (length (columns df));
               body := body df |}]> h1).
Proof.
  intros Hc Hidx Hrun Hr. rewrite compute_feature_unfold, Hc, Hidx.
  erewrite bind_run; [|reflexivity].
  erewrite bind_run; [|by erewrite bind_run by exact Hrun].
  by apply rename_output.
Qed.


Lemma elem_of_merged_labels (x : string) (features : list (Feature rows)) :
  ∀ widths,
    x ∈ concat (zip_with (λ feature n, suffixed (name feature) n)
                  features widths) →
    ∃ feature i, feature ∈ features ∧ x = name feature +:+ "_" +:+ str i.
Proof.
  induction features as [|feature features IH]; intros [|n widths] Hx;
    try by apply elem_of_nil in Hx.
  cbn [zip_with concat] in Hx. apply elem_of_app in Hx as [Hx|Hx].
  - apply elem_of_suffixed in Hx as (i & _ & ->).
    exists feature, i. split; [left|done].
  - destruct (IH _ Hx) as (feature' & i & Hin & ->).
    exists feature', i. split; [by right|done].
Qed.

Lemma NoDup_merged_labels (features : list (Feature rows)) :
  NoDup (name <$> features) →
  ∀ widths,
    NoDup (concat (zip_with (λ feature n, suffixed (name feature) n)
                     features widths)).
Proof.
  induction features as [|feature features IH]; intros Hnames [|n widths];
    try apply NoDup_nil_2.
  cbn [fmap list_fmap] in Hnames. apply NoDup_cons in Hnames as [Hnew Hnames].
  cbn [zip_with concat]. apply NoDup_app. split_and!.
  - apply NoDup_suffixed.
  - intros x Hx Hx'. apply elem_of_suffixed in Hx as (i & _ & ->).
    apply elem_of_merged_labels in Hx' as (feature' & j & Hin & Heq).
    apply label_inj in Heq as [Heq _]. apply Hnew. rewrite Heq.
    apply list_elem_of_fmap. by exists feature'.
  - by apply IH.
Qed.

(** X15. The suffix does disambiguate: when the features have pairwise
    different names and their compute functions return frames of their
    own, the table the store computes has pairwise different column
    labels, whatever labels the compute functions gave. *)
Theorem merged_labels_are_distinct (input : ref)
    (features : list (Feature rows)) h (merged : ref) h' :
  Forall (λ feature, ∀ f, compute feature = Some f →
                          returns_a_new_frame f input) features →
  NoDup (name <$> features) →
  PandasFeatureStore_compute take_column align_rows input features h
  = (Returns merged, h') →
  ∃ df, h' !! merged = Some df ∧ NoDup (columns df).
Proof.
  intros Hnew Hnames Hrun.
  destruct (merged_columns take_column align_rows _ _ _ _ _ Hnew Hrun)
    as (df & widths & Hdf & _ & Hcols).
  exists df. split; [done|]. rewrite Hcols. by apply NoDup_merged_labels.
Qed.

End more_executor.

Lemma direct_read_copies_the_column_witness :
  positions "x" ["x"; "y"] 0 = [0]
  ∧ compute_feature take_cells 0 (direct_column "x") input_table
    = (Returns 1,
       input_table ++ [{| columns := ["x_0"]; body := [[1; 2]%Z] |}]).
Proof.
  split; [reflexivity|].
  exact (direct_read_copies_the_column take_cells 0 (direct_column "x")
           input_table {| columns := ["x"; "y"]; body := [[1; 2]; [3; 4]]%Z |}
           0 eq_refl eq_refl eq_refl eq_refl).
Defined.



Lemma index_columns_rejected_anywhere_witness :
  indexed_feature ∈ [single_column_feature; indexed_feature]
  ∧ compute_feature take_cells 0 indexed_feature input_table
    = (Raises (ValueError index_columns_message), input_table)
  ∧ ∀ merged h',
      PandasFeatureStore_compute take_cells align_cells 0
        [single_column_feature; indexed_feature] input_table
      ≠ (Returns merged, h').
Proof.
  assert (indexed_feature ∈ [single_column_feature; indexed_feature]) as Hin
    by (right; left).
  split; [exact Hin|].
  apply (index_columns_rejected_anywhere take_cells align_cells 0
           indexed_feature _ input_table); [discriminate|exact Hin].
Defined.

Lemma compute_stops_at_first_failure_witness :
  compute_feature take_cells 0 raising_feature
    (input_table ++ [{| columns := ["f_0"]; body := [[1; 2]%Z] |}])
  = (Raises (KeyError "z"),
     input_table ++ [{| columns := ["f_0"]; body := [[1; 2]%Z] |}])
  ∧ PandasFeatureStore_compute take_cells align_cells 0
      ([single_column_feature] ++ raising_feature :: [two_column_feature])
      input_table
    = (Raises (KeyError "z"),
       input_table ++ [{| columns := ["f_0"]; body := [[1; 2]%Z] |}]).
Proof.
  split; [reflexivity|].
  apply (compute_stops_at_first_failure take_cells align_cells 0
           [single_column_feature] [two_column_feature] raising_feature
           input_table [1]
           (input_table ++ [{| columns := ["f_0"]; body := [[1; 2]%Z] |}]));
    reflexivity.
Defined.

Lemma compute_exception_passes_through_witness :
  compute_feature take_cells 0 raising_feature input_table
  = (Raises (KeyError "z"), input_table).
Proof.
  apply (compute_exception_passes_through take_cells 0 raising_feature
           (λ table, raise (KeyError "z")) input_table);
    reflexivity.
Defined.

Lemma output_is_relabelled_in_place_witness :
  compute_feature take_cells 0 single_column_feature input_table
  = (Returns 1,
     input_table ++ [{| columns := ["f_0"]; body := [[1; 2]%Z] |}]).
Proof.
  exact (output_is_relabelled_in_place take_cells 0 single_column_feature
           (λ table, r ← allocate {| columns := ["v"]; body := [[1; 2]%Z] |};
                     mret (FrameRef r))
           input_table 1
           (input_table ++ [{| columns := ["v"]; body := [[1; 2]%Z] |}])
           {| columns := ["v"]; body := [[1; 2]%Z] |}
           eq_refl eq_refl eq_refl eq_refl).
Defined.


Lemma allocating_compute_returns_a_new_frame (df : DataFrame cells)
    (input : ref) :
  returns_a_new_frame (λ table, r ← allocate df; mret (FrameRef r)) input.
Proof. intros h v h' [= <- <-]. by exists df. Qed.

Lemma merged_labels_are_distinct_witness :
  NoDup (name <$> [single_column_feature; two_column_feature])
  ∧ ∃ df,
      (input_table ++
         [{| columns := ["f_0"]; body := [[1; 2]%Z] |};
          {| columns := ["pair_0"; "pair_1"]; body := [[2; 4]; [6; 8]]%Z |};
          {| columns := ["f_0"; "pair_0"; "pair_1"];
             body := [[1; 2]; [2; 4]; [6; 8]]%Z |}]) !! 3 = Some df
      ∧ NoDup (columns df).
Proof.
  assert (NoDup (name <$> [single_column_feature; two_column_feature]))
    as Hnames.
  { apply NoDup_cons. split; [|apply NoDup_singleton].
    intros Hin%list_elem_of_singleton. discriminate Hin. }
  split; [exact Hnames|].
  apply (merged_labels_are_distinct take_cells align_cells 0
           [single_column_feature; two_column_feature] input_table 3).
  - repeat constructor; intros f [= <-];
      apply allocating_compute_returns_a_new_frame.
  - exact Hnames.
  - reflexivity.
Defined.

End ExecutorExtras.
